(** * find_longest_functions.py: the function scanner and the report

    A shallow embedding of [scripts/utils/find_longest_functions.py]:
    the line scanner [find_functions], which detects C function
    definitions by a one-line pattern and brace counting, and [main],
    which sorts the collected records, prints the five longest and
    derives the exit status from the 150-line threshold.

    Text is modelled as [string]: a character is an [ascii], read as
    the code point of that number, so the lines are the texts over the
    code points below 256, and the character classes are Python's on
    all of them. Python integers are [Z], the list of records is a
    [list], the standard output is the list of the arguments of the
    [print] calls, in order. *)

From Stdlib Require Import ZArith List Bool Lia Permutation Sorted.
From Stdlib Require Import Ascii String DecimalString DecimalPos DecimalZ.
Import ListNotations.

Open Scope string_scope.
Open Scope Z_scope.
Open Scope list_scope.

(** ** Characters and strings *)

Module Text.

(** [lo <= n <= hi] *)
Definition between (lo hi n : nat) : bool := ((lo <=? n) && (n <=? hi))%nat.

(** [str.isspace] on one character, which is also the class [\s] of
    [re] on [str] patterns. On the code points below 256: TAB, LF, VT,
    FF, CR, the separators FS, GS, RS, US, the space, and the two
    non-ASCII ones, NEL (U+0085) and the no-break space (U+00A0). *)
Definition isspace (c : ascii) : bool :=
  let n := nat_of_ascii c in
  between 9 13 n || between 28 32 n || (n =? 133)%nat || (n =? 160)%nat.

(** The class [\w] of [re] on [str] patterns: the alphanumeric
    characters of Unicode and the underscore. On the code points below
    256: the ASCII digits and letters, the underscore, and the Latin-1
    letters and numbers, U+00AA, U+00B2, U+00B3, U+00B5, U+00B9, U+00BA,
    U+00BC to U+00BE, U+00C0 to U+00D6, U+00D8 to U+00F6 and U+00F8 to
    U+00FF. *)
Definition isword (c : ascii) : bool :=
  let n := nat_of_ascii c in
  between 48 57 n || between 65 90 n || (n =? 95)%nat || between 97 122 n
  || (n =? 170)%nat || between 178 179 n || (n =? 181)%nat
  || between 185 186 n || between 188 190 n || between 192 214 n
  || between 216 246 n || between 248 255 n.

Fixpoint lstrip (s : string) : string :=
  match s with
  | String c s' => if isspace c then lstrip s' else s
  | EmptyString => EmptyString
  end.

Fixpoint rstrip (s : string) : string :=
  match s with
  | String c s' =>
      match rstrip s' with
      | EmptyString => if isspace c then EmptyString else String c EmptyString
      | t => String c t
      end
  | EmptyString => EmptyString
  end.

(** [s.strip()] *)
Definition strip (s : string) : string := rstrip (lstrip s).

(** [s.count(c)] for a one-character [c] *)
Fixpoint count (c : ascii) (s : string) : Z :=
  match s with
  | String d s' => (if Ascii.eqb c d then 1 else 0) + count c s'
  | EmptyString => 0
  end.

(** [s.startswith(p)] *)
Definition startswith (p s : string) : bool := String.prefix p s.

(** [str(n)] for an integer [n] *)
Definition str (n : Z) : string := NilEmpty.string_of_int (Z.to_int n).

(** [enumerate(l, start)] *)
Fixpoint enumerate {A : Type} (start : Z) (l : list A) : list (Z * A) :=
  match l with
  | [] => []
  | x :: l' => (start, x) :: enumerate (start + 1) l'
  end.

End Text.

(** ** The fragment of [re] the signature pattern uses

    A backtracking matcher in continuation-passing style, with Python's
    order of alternatives: a repetition or an optional part first takes
    as much as it can and gives back on failure. *)

Module Re.

Inductive regex : Type :=
| Bol                              (* ^ *)
| Eol                              (* $ *)
| Chr (c : ascii)                  (* one literal character *)
| Star (p : ascii -> bool)         (* C*, C a one-character class *)
| Plus (p : ascii -> bool)         (* C+ *)
| Opt (r : regex)                  (* r? *)
| Cat (r1 r2 : regex)              (* r1 r2 *)
| Grp (n : nat) (r : regex).       (* ( r ), the n-th group *)

(** The spans of the groups that took part in the match. *)
Definition groups : Type := nat -> option (nat * nat).

Definition no_groups : groups := fun _ => None.

Definition set_group (n : nat) (span : nat * nat) (g : groups) : groups :=
  fun m => if Nat.eqb m n then Some span else g m.

Definition cont : Type := nat -> string -> groups -> option groups.

Fixpoint star (p : ascii -> bool) (pos : nat) (s : string) (g : groups)
    (k : cont) : option groups :=
  match s with
  | String c s' =>
      if p c then
        match star p (S pos) s' g k with
        | Some m => Some m
        | None => k pos s g
        end
      else k pos s g
  | EmptyString => k pos s g
  end.

Fixpoint rmatch (r : regex) (pos : nat) (s : string) (g : groups)
    (k : cont) : option groups :=
  match r with
  | Bol => if Nat.eqb pos 0 then k pos s g else None
  | Eol =>
      match s with
      | EmptyString => k pos s g
      | String c EmptyString => if Ascii.eqb c "010" then k pos s g else None
      | _ => None
      end
  | Chr c =>
      match s with
      | String d s' => if Ascii.eqb c d then k (S pos) s' g else None
      | EmptyString => None
      end
  | Star p => star p pos s g k
  | Plus p =>
      match s with
      | String d s' => if p d then star p (S pos) s' g k else None
      | EmptyString => None
      end
  | Opt r' =>
      match rmatch r' pos s g k with
      | Some m => Some m
      | None => k pos s g
      end
  | Cat r1 r2 => rmatch r1 pos s g (fun pos' s' g' => rmatch r2 pos' s' g' k)
  | Grp n r' =>
      rmatch r' pos s g (fun pos' s' g' => k pos' s' (set_group n (pos, pos') g'))
  end.

(** A literal word, character by character. *)
Fixpoint Lit (w : string) (rest : regex) : regex :=
  match w with
  | String c w' => Cat (Chr c) (Lit w' rest)
  | EmptyString => rest
  end.

(** [pattern.match(s)]: the match is anchored at the start of [s]. *)
Definition match_ (r : regex) (s : string) : option groups :=
  rmatch r 0 s no_groups (fun _ _ g => Some g).

(** [m.group(n)] of a match [m] on [s], for a group that took part. *)
Definition group (s : string) (m : groups) (n : nat) : string :=
  match m n with
  | Some (a, b) => substring a (b - a) s
  | None => EmptyString
  end.

End Re.

(** ** The scanner *)

(** The tuple [(func_name, func_start, func_length, file_path)]. *)
Record FunctionRecord : Type := mkRecord {
  fn_name : string;
  fn_start : Z;
  fn_length : Z;
  fn_path : string
}.

(** [^(static\s+)?(\w+\s+\*?)(\w+)\s*\([^)]*\)\s*\{?$] *)
Definition func_pattern : Re.regex :=
  let sp := Text.isspace in
  let w := Text.isword in
  Re.Cat Re.Bol
  (Re.Cat (Re.Opt (Re.Grp 1 (Re.Lit "static" (Re.Plus sp))))
  (Re.Cat (Re.Grp 2 (Re.Cat (Re.Plus w) (Re.Cat (Re.Plus sp) (Re.Opt (Re.Chr "*")))))
  (Re.Cat (Re.Grp 3 (Re.Plus w))
  (Re.Cat (Re.Star sp)
  (Re.Cat (Re.Chr "(")
  (Re.Cat (Re.Star (fun c => negb (Ascii.eqb c ")")))
  (Re.Cat (Re.Chr ")")
  (Re.Cat (Re.Star sp)
  (Re.Cat (Re.Opt (Re.Chr "{"))
   Re.Eol))))))))).

(** The local variables of the loop of [find_functions]. *)
Record state : Type := mkState {
  functions : list FunctionRecord;
  in_function : bool;
  func_start : Z;
  func_name : string;
  brace_count : Z
}.

Definition init : state :=
  {| functions := []; in_function := false; func_start := 0;
     func_name := ""; brace_count := 0 |}.

(** The condition of the first [if] of the loop: the line is empty, a
    [//] comment or a preprocessor line. *)
Definition skipped (stripped : string) : bool :=
  String.eqb stripped "" || Text.startswith "//" stripped
  || Text.startswith "#" stripped.

(** [stripped.count('{') - stripped.count('}')] *)
Definition braces (stripped : string) : Z :=
  Text.count "{" stripped - Text.count "}" stripped.

(** [match and not stripped.startswith('typedef')], with the name
    [match.group(3)] when the test holds. *)
Definition signature (stripped : string) : option string :=
  match Re.match_ func_pattern stripped with
  | Some m =>
      if negb (Text.startswith "typedef" stripped)
      then Some (Re.group stripped m 3)
      else None
  | None => None
  end.

(** One iteration of [for i, line in enumerate(lines, 1)]. *)
Definition loop_body (file_path : string) (i : Z) (line : string)
    (st : state) : state :=
  let stripped := Text.strip line in
  if skipped stripped then st
  else
    match (if negb (in_function st) then signature stripped else None) with
    | Some name =>
        {| functions := functions st; in_function := true; func_start := i;
           func_name := name; brace_count := braces stripped |}
    | None =>
        if in_function st then
          let brace_count' := brace_count st + braces stripped in
          if brace_count' =? 0 then
            let func_length := i - func_start st + 1 in
            {| functions :=
                 functions st
                 ++ [mkRecord (func_name st) (func_start st) func_length file_path];
               in_function := false; func_start := func_start st;
               func_name := ""; brace_count := brace_count' |}
          else
            {| functions := functions st; in_function := true;
               func_start := func_start st; func_name := func_name st;
               brace_count := brace_count' |}
        else st
    end.

Fixpoint scan (file_path : string) (i : Z) (lines : list string)
    (st : state) : state :=
  match lines with
  | [] => st
  | line :: rest => scan file_path (i + 1) rest (loop_body file_path i line st)
  end.

(** [find_functions(file_path)]; [contents] is what [open] and
    [readlines] give: [None] when either raises, the lines otherwise. *)
Definition find_functions (file_path : string)
    (contents : option (list string)) : list FunctionRecord :=
  match contents with
  | None => []
  | Some lines => functions (scan file_path 1 lines init)
  end.

(** ** The report *)

(** [l.sort(key=key, reverse=True)]. Python's sort is stable, and with
    [reverse=True] the elements of equal key still keep their order:
    each element is placed after those of greater or equal key that
    came before it. *)
Fixpoint insert_desc {A : Type} (key : A -> Z) (x : A) (l : list A) : list A :=
  match l with
  | [] => [x]
  | y :: l' =>
      if key x <? key y then y :: insert_desc key x l' else x :: y :: l'
  end.

Definition sort_desc {A : Type} (key : A -> Z) (l : list A) : list A :=
  fold_right (insert_desc key) [] l.

(** What the run sees of the file system: the paths [rglob('*.c')]
    yields under a directory, in the order of the traversal, and what
    opening and reading a path gives. *)
Record world : Type := mkWorld {
  rglob_c : string -> list string;
  read : string -> option (list string)
}.

Definition usage : string := "Usage: find_longest_functions.py <src_directory>".

Definition header : string := "Top 5 longest functions:".

(** [f"{i}. {name} ({path}:{start}) - {length} lines"] *)
Definition entry (i : Z) (f : FunctionRecord) : string :=
  (Text.str i ++ ". " ++ fn_name f ++ " (" ++ fn_path f ++ ":"
   ++ Text.str (fn_start f) ++ ") - " ++ Text.str (fn_length f) ++ " lines")%string.

(** [f"\nFound {n} functions exceeding 150 lines"] *)
Definition count_line (n : Z) : string :=
  String "010" ("Found " ++ Text.str n ++ " functions exceeding 150 lines")%string.

(** The loop over [src_dir.rglob('*.c')]. *)
Definition collect (w : world) (src_dir : string) : list FunctionRecord :=
  flat_map (fun c_file => find_functions c_file (read w c_file))
           (rglob_c w src_dir).

(** [main()]: the arguments of the [print] calls in order, and the exit
    status. [argv] is [sys.argv]. *)
Definition main (argv : list string) (w : world) : list string * Z :=
  if (Z.of_nat (List.length argv) <? 2) then ([usage], 1)
  else
    let src_dir := nth 1 argv "" in
    let all_functions := collect w src_dir in
    let all_functions := sort_desc fn_length all_functions in
    let out :=
      header :: map (fun '(i, f) => entry i f)
                    (Text.enumerate 1 (firstn 5 all_functions)) in
    let long_funcs := filter (fun f => 150 <? fn_length f) all_functions in
    match long_funcs with
    | _ :: _ => (out ++ [count_line (Z.of_nat (List.length long_funcs))], 1)
    | [] => (out, 0)
    end.

(** ** Vocabulary of the statements *)

(** The three observations the loop makes of a line of the file. *)
Definition is_skipped (line : string) : bool := skipped (Text.strip line).

Definition line_signature (line : string) : option string :=
  if is_skipped line then None else signature (Text.strip line).

Definition line_braces (line : string) : Z :=
  if is_skipped line then 0 else braces (Text.strip line).

(** The braces a run of lines opens, less those it closes. *)
Definition depth (ls : list string) : Z :=
  fold_right (fun l d => line_braces l + d) 0 ls.

(** Starting from depth [d], no line of [body] that is looked at brings
    the depth back to zero. *)
Definition open_body (d : Z) (body : list string) : Prop :=
  forall j l, nth_error body j = Some l -> is_skipped l = false ->
    d + depth (firstn (S j) body) <> 0.

(** The state of the loop once [lines] have been read. *)
Definition run (file_path : string) (lines : list string) : state :=
  scan file_path 1 lines init.

Definition len {A : Type} (l : list A) : Z := Z.of_nat (List.length l).

(** [r] is a function of [lines] whose closing line was read: a
    signature line, a body that stays open, and the first line that
    brings the depth back to zero. *)
Definition closed_in (file_path : string) (lines : list string)
    (r : FunctionRecord) : Prop :=
  exists pre sig mid close post,
    lines = pre ++ sig :: mid ++ close :: post /\
    fn_start r = len pre + 1 /\
    fn_length r = len mid + 2 /\
    line_signature sig = Some (fn_name r) /\
    open_body (braces (Text.strip sig)) mid /\
    is_skipped close = false /\
    braces (Text.strip sig) + depth mid + braces (Text.strip close) = 0 /\
    fn_path r = file_path.

(** A function was started in [lines] and is still open at their end. *)
Definition pending (lines : list string) (st : state) : Prop :=
  exists pre sig mid,
    lines = pre ++ sig :: mid /\
    func_start st = len pre + 1 /\
    line_signature sig = Some (func_name st) /\
    open_body (braces (Text.strip sig)) mid /\
    brace_count st = braces (Text.strip sig) + depth mid.

(** The last line of a record. *)
Definition fn_end (r : FunctionRecord) : Z := fn_start r + fn_length r - 1.

Definition before (a b : FunctionRecord) : Prop := fn_end a < fn_start b.

(** What holds of the state once [lines] have been read: every record
    is a closed function of [lines], the records follow one another,
    and a function that is open started after the last record. *)
Definition invariant (file_path : string) (lines : list string)
    (st : state) : Prop :=
  Forall (closed_in file_path lines) (functions st) /\
  StronglySorted before (functions st) /\
  (in_function st = true ->
   pending lines st /\ Forall (fun r => fn_end r < func_start st) (functions st)).

(** Descending order of the keys. *)
Definition desc {A : Type} (key : A -> Z) (a b : A) : Prop := key b <= key a.

(** The number of records of more than 150 lines. *)
Definition long_count (recs : list FunctionRecord) : Z :=
  len (filter (fun f => 150 <? fn_length f) recs).

Definition has_length (n : Z) (f : FunctionRecord) : bool := fn_length f =? n.

(** The lines the records cover, added up. *)
Definition total_length (recs : list FunctionRecord) : Z :=
  fold_right (fun r n => fn_length r + n) 0 recs.

(** A record of a piece of a file, seen from the file: the piece starts
    after [k] lines. *)
Definition shift (k : Z) (r : FunctionRecord) : FunctionRecord :=
  mkRecord (fn_name r) (fn_start r + k) (fn_length r) (fn_path r).

(** Two states the loop cannot tell apart: outside a function the
    start, the name and the brace count are not read before they are
    set again. *)
Definition same_state (a b : state) : Prop :=
  functions a = functions b /\ in_function a = in_function b
  /\ (in_function a = true ->
      func_start a = func_start b /\ func_name a = func_name b
      /\ brace_count a = brace_count b).

(** The state of a scan of a piece of a file, seen from the file: the
    records [found] before the piece come first. *)
Definition relocate (k : Z) (found : list FunctionRecord) (st : state) : state :=
  mkState (found ++ map (shift k) (functions st)) (in_function st)
    (func_start st + k) (func_name st) (brace_count st).

(** Every character of [s] is in the class [p]. *)
Fixpoint all_in (p : ascii -> bool) (s : string) : bool :=
  match s with
  | String c s' => p c && all_in p s'
  | EmptyString => true
  end.

(** What a pattern matches, read off its syntax: from the position
    [pos], where [s] is left to read and the groups are [g], the
    pattern [r] can take the matcher to the position [pos'], where [s']
    is left and the groups are [g']. *)
Fixpoint sem (r : Re.regex) (pos : nat) (s : string) (g : Re.groups)
    (pos' : nat) (s' : string) (g' : Re.groups) : Prop :=
  match r with
  | Re.Bol => pos = 0%nat /\ pos' = pos /\ s' = s /\ g' = g
  | Re.Eol =>
      (s = "" \/ s = String "010" "") /\ pos' = pos /\ s' = s /\ g' = g
  | Re.Chr c => s = String c s' /\ pos' = S pos /\ g' = g
  | Re.Star p =>
      exists w, s = (w ++ s')%string /\ all_in p w = true
                /\ pos' = (pos + String.length w)%nat /\ g' = g
  | Re.Plus p =>
      exists w, w <> "" /\ s = (w ++ s')%string /\ all_in p w = true
                /\ pos' = (pos + String.length w)%nat /\ g' = g
  | Re.Opt r' => (pos' = pos /\ s' = s /\ g' = g) \/ sem r' pos s g pos' s' g'
  | Re.Cat r1 r2 =>
      exists pos1 s1 g1,
        sem r1 pos s g pos1 s1 g1 /\ sem r2 pos1 s1 g1 pos' s' g'
  | Re.Grp n r' =>
      exists g1, sem r' pos s g pos' s' g1
                 /\ g' = Re.set_group n (pos, pos') g1
  end.

(** The class [p] does not go on into [s]: [s] is empty or begins
    with a character outside [p]. *)
Definition stops (p : ascii -> bool) (s : string) : bool :=
  match s with
  | String c _ => negb (p c)
  | EmptyString => true
  end.

(** The part of [func_pattern] after the optional [static]. *)
Definition func_core : Re.regex :=
  let sp := Text.isspace in
  let w := Text.isword in
  Re.Cat (Re.Grp 2 (Re.Cat (Re.Plus w) (Re.Cat (Re.Plus sp) (Re.Opt (Re.Chr "*")))))
  (Re.Cat (Re.Grp 3 (Re.Plus w))
  (Re.Cat (Re.Star sp)
  (Re.Cat (Re.Chr "(")
  (Re.Cat (Re.Star (fun c => negb (Ascii.eqb c ")")))
  (Re.Cat (Re.Chr ")")
  (Re.Cat (Re.Star sp)
  (Re.Cat (Re.Opt (Re.Chr "{"))
   Re.Eol))))))).

(** A definition line in the usual layout: the type, white space, an
    optional [*], the name, and the parenthesised arguments, with an
    optional opening brace at the end. *)
Definition definition_line (type ws1 ptr name ws2 args ws3 brace : string)
    : string :=
  (type ++ ws1 ++ ptr ++ name ++ ws2
   ++ String "(" (args ++ String ")" (ws3 ++ brace)))%string.


(** ** The sort *)

Section Sort.

Context {A : Type} (key : A -> Z).

Lemma insert_desc_perm (x : A) (l : list A) :
  Permutation (x :: l) (insert_desc key x l).
Proof.
  induction l as [|y l IH]; simpl; [reflexivity|].
  destruct (key x <? key y); [|reflexivity].
  rewrite perm_swap. now constructor.
Qed.

Lemma sort_desc_perm (l : list A) : Permutation l (sort_desc key l).
Proof.
  induction l as [|x l IH]; simpl; [constructor|].
  rewrite <- insert_desc_perm. now constructor.
Qed.

Lemma insert_desc_sorted (x : A) (l : list A) :
  StronglySorted (desc key) l -> StronglySorted (desc key) (insert_desc key x l).
Proof.
  induction 1 as [|y l Hs IH Hy]; simpl.
  - repeat constructor.
  - destruct (key x <? key y) eqn:E.
    + constructor; [exact IH|].
      rewrite <- insert_desc_perm. constructor; [|exact Hy].
      unfold desc. lia.
    + constructor; [now constructor|].
      constructor; [unfold desc; lia|].
      eapply Forall_impl; [|exact Hy]. unfold desc. intros; lia.
Qed.

Lemma sort_desc_sorted (l : list A) : StronglySorted (desc key) (sort_desc key l).
Proof.
  induction l as [|x l IH]; simpl; [constructor|].
  now apply insert_desc_sorted.
Qed.

Lemma insert_desc_filter (n : Z) (x : A) (l : list A) :
  filter (fun a => key a =? n) (insert_desc key x l)
  = filter (fun a => key a =? n) (x :: l).
Proof.
  induction l as [|y l IH]; [reflexivity|].
  cbn [insert_desc]. destruct (key x <? key y) eqn:E; [|reflexivity].
  cbn [filter] in *. rewrite IH.
  destruct (key x =? n) eqn:Ex, (key y =? n) eqn:Ey; try reflexivity; lia.
Qed.

Lemma sort_desc_filter (n : Z) (l : list A) :
  filter (fun a => key a =? n) (sort_desc key l)
  = filter (fun a => key a =? n) l.
Proof.
  induction l as [|x l IH]; [reflexivity|].
  cbn [sort_desc fold_right]. rewrite insert_desc_filter.
  cbn [filter]. fold (sort_desc key l). now rewrite IH.
Qed.

Lemma sort_desc_sorted_id (l : list A) :
  StronglySorted (desc key) l -> sort_desc key l = l.
Proof.
  induction 1 as [|x l Hs IH Hx]; [reflexivity|].
  cbn [sort_desc fold_right]. fold (sort_desc key l). rewrite IH.
  destruct Hx as [|y l Hy _]; [reflexivity|].
  cbn [insert_desc]. unfold desc in Hy.
  destruct (key x <? key y) eqn:E; [lia|reflexivity].
Qed.

(** Two lists in descending order that agree on the records of each key
    are equal: descending order and stability leave one result only. *)
Lemma sorted_filter_unique (l1 l2 : list A) :
  StronglySorted (desc key) l1 -> StronglySorted (desc key) l2 ->
  (forall n, filter (fun a => key a =? n) l1 = filter (fun a => key a =? n) l2) ->
  l1 = l2.
Proof.
  intros H1; revert l2.
  induction H1 as [|x l1 Hs1 IH Hx]; intros l2 H2 HF.
  - destruct l2 as [|y l2]; [reflexivity|].
    specialize (HF (key y)). cbn [filter] in HF.
    rewrite Z.eqb_refl in HF. discriminate.
  - destruct H2 as [|y l2 Hs2 Hy].
    + specialize (HF (key x)). cbn [filter] in HF.
      rewrite Z.eqb_refl in HF. discriminate.
    + assert (Exy : x = y).
      { pose proof (HF (key x)) as Fx. pose proof (HF (key y)) as Fy.
        cbn [filter] in Fx, Fy. rewrite Z.eqb_refl in Fx, Fy.
        destruct (key y =? key x) eqn:E.
        - congruence.
        - assert (Ix : In x l2).
          { assert (I : In x (x :: filter (fun a => key a =? key x) l1))
              by now left.
            rewrite Fx in I. apply filter_In in I. tauto. }
          assert (Iy : In y l1).
          { assert (I : In y (y :: filter (fun a => key a =? key y) l2))
              by now left.
            rewrite <- Fy in I.
            destruct (key x =? key y) eqn:E'; [lia|].
            apply filter_In in I. tauto. }
          rewrite Forall_forall in Hx, Hy.
          specialize (Hx _ Iy). specialize (Hy _ Ix).
          unfold desc in Hx, Hy. lia. }
      subst y. f_equal. apply IH; [exact Hs2|].
      intros n. specialize (HF n). cbn [filter] in HF.
      destruct (key x =? n); congruence.
Qed.

Lemma sort_desc_unique (l l' : list A) :
  StronglySorted (desc key) l' ->
  (forall n, filter (fun a => key a =? n) l' = filter (fun a => key a =? n) l) ->
  l' = sort_desc key l.
Proof.
  intros Hs HF. apply sorted_filter_unique; [exact Hs|apply sort_desc_sorted|].
  intros n. now rewrite sort_desc_filter.
Qed.

Lemma insert_desc_filter_length (f : A -> bool) (x : A) (l : list A) :
  List.length (filter f (insert_desc key x l))
  = List.length (filter f (x :: l)).
Proof.
  induction l as [|y l IH]; [reflexivity|].
  cbn [insert_desc]. destruct (key x <? key y); [|reflexivity].
  cbn [filter] in *. destruct (f x), (f y); cbn [List.length] in *; lia.
Qed.

Lemma sort_desc_filter_length (f : A -> bool) (l : list A) :
  List.length (filter f (sort_desc key l)) = List.length (filter f l).
Proof.
  induction l as [|x l IH]; [reflexivity|].
  cbn [sort_desc fold_right]. rewrite insert_desc_filter_length.
  fold (sort_desc key l). cbn [filter].
  destruct (f x); cbn [List.length]; lia.
Qed.

Lemma sorted_app_inv (R : A -> A -> Prop) (a b : list A) :
  StronglySorted R (a ++ b) ->
  StronglySorted R a /\ StronglySorted R b
  /\ forall x y, In x a -> In y b -> R x y.
Proof.
  induction a as [|z a IH]; cbn [app]; intros H.
  - repeat split; [constructor|exact H|intros x y []].
  - apply StronglySorted_inv in H as [Hs Hz].
    destruct (IH Hs) as (Ha & Hb & Hab).
    apply Forall_app in Hz as [Hza Hzb].
    repeat split; [now constructor|exact Hb|].
    intros x y [<-|Hx] Hy; [|now apply Hab].
    rewrite Forall_forall in Hzb. now apply Hzb.
Qed.

End Sort.

(** ** The loop, case by case *)

Lemma len_app {A : Type} (a b : list A) : len (a ++ b) = len a + len b.
Proof. unfold len. rewrite length_app. lia. Qed.

Lemma len_cons {A : Type} (x : A) (l : list A) : len (x :: l) = len l + 1.
Proof. unfold len. cbn [List.length]. lia. Qed.

Lemma len_nonneg {A : Type} (l : list A) : 0 <= len l.
Proof. unfold len. lia. Qed.

Lemma line_braces_skipped l : is_skipped l = true -> line_braces l = 0.
Proof. unfold line_braces. now intros ->. Qed.

Lemma line_braces_read l :
  is_skipped l = false -> line_braces l = braces (Text.strip l).
Proof. unfold line_braces. now intros ->. Qed.

Lemma line_signature_read l name :
  line_signature l = Some name -> is_skipped l = false.
Proof. unfold line_signature. now destruct (is_skipped l). Qed.

Lemma depth_cons l ls : depth (l :: ls) = line_braces l + depth ls.
Proof. reflexivity. Qed.

Lemma depth_app a b : depth (a ++ b) = depth a + depth b.
Proof. induction a as [|l a IH]; simpl; [reflexivity|]. rewrite IH. lia. Qed.

Lemma open_body_nil d : open_body d [].
Proof. intros [|j] l H; discriminate. Qed.

Lemma open_body_cons d l ls :
  open_body d (l :: ls) <->
  (is_skipped l = false -> d + line_braces l <> 0)
  /\ open_body (d + line_braces l) ls.
Proof.
  split.
  - intros H; split.
    + intros Hl. specialize (H 0%nat l eq_refl Hl). simpl in H. lia.
    + intros j x Hx Hs. specialize (H (S j) x Hx Hs).
      rewrite firstn_cons, depth_cons in H. lia.
  - intros [H0 H] [|j] x Hx Hs.
    + injection Hx as <-. specialize (H0 Hs). simpl. lia.
    + specialize (H j x Hx Hs).
      rewrite firstn_cons, depth_cons. lia.
Qed.

Lemma open_body_snoc d ls l :
  open_body d (ls ++ [l]) <->
  open_body d ls /\ (is_skipped l = false -> d + depth ls + line_braces l <> 0).
Proof.
  revert d; induction ls as [|x ls IH]; intros d.
  - cbn [app depth fold_right]. rewrite open_body_cons.
    split; intros [H1 H2]; split; auto using open_body_nil;
      intros Hs; specialize (H1 Hs) || specialize (H2 Hs); lia.
  - cbn [app]. rewrite !open_body_cons, IH, depth_cons.
    replace (d + (line_braces x + depth ls)) with (d + line_braces x + depth ls)
      by lia.
    tauto.
Qed.

Section Scanner.

Variable file_path : string.

Lemma scan_app i l1 l2 st :
  scan file_path i (l1 ++ l2) st
  = scan file_path (i + len l1) l2 (scan file_path i l1 st).
Proof.
  revert i st; induction l1 as [|l l1 IH]; intros i st; cbn [app scan].
  - unfold len; simpl. now rewrite Z.add_0_r.
  - rewrite IH, len_cons. f_equal. lia.
Qed.

Lemma run_snoc ls l :
  run file_path (ls ++ [l])
  = loop_body file_path (len ls + 1) l (run file_path ls).
Proof.
  unfold run. rewrite scan_app. cbn [scan]. f_equal. lia.
Qed.

Lemma loop_body_skipped i l st :
  is_skipped l = true -> loop_body file_path i l st = st.
Proof. unfold loop_body, is_skipped. now intros ->. Qed.

Lemma loop_body_signature i l st name :
  in_function st = false -> line_signature l = Some name ->
  loop_body file_path i l st
  = mkState (functions st) true i name (braces (Text.strip l)).
Proof.
  unfold loop_body, line_signature, is_skipped. intros Hin Hs.
  destruct (skipped (Text.strip l)); [discriminate|].
  rewrite Hin. cbn [negb]. now rewrite Hs.
Qed.

Lemma loop_body_idle i l st :
  in_function st = false -> line_signature l = None ->
  loop_body file_path i l st = st.
Proof.
  unfold loop_body, line_signature, is_skipped. intros Hin Hs.
  destruct (skipped (Text.strip l)); [reflexivity|].
  rewrite Hin. cbn [negb]. now rewrite Hs.
Qed.

Lemma loop_body_inside i l st :
  in_function st = true -> is_skipped l = false ->
  loop_body file_path i l st
  = if brace_count st + braces (Text.strip l) =? 0 then
      mkState
        (functions st
         ++ [mkRecord (func_name st) (func_start st) (i - func_start st + 1)
               file_path])
        false (func_start st) "" (brace_count st + braces (Text.strip l))
    else
      mkState (functions st) true (func_start st) (func_name st)
        (brace_count st + braces (Text.strip l)).
Proof.
  unfold loop_body, is_skipped. intros Hin ->. now rewrite Hin.
Qed.

Lemma scan_idle ls : forall i st,
  in_function st = false ->
  Forall (fun l => line_signature l = None) ls ->
  scan file_path i ls st = st.
Proof.
  induction ls as [|l ls IH]; intros i st Hin Hls; [reflexivity|].
  inversion Hls as [|? ? Hl Hls']; subst.
  cbn [scan]. rewrite loop_body_idle by assumption. now apply IH.
Qed.

Lemma scan_open body : forall i st,
  in_function st = true ->
  open_body (brace_count st) body ->
  scan file_path i body st
  = mkState (functions st) true (func_start st) (func_name st)
      (brace_count st + depth body).
Proof.
  induction body as [|l body IH]; intros i st Hin Hopen.
  - destruct st; simpl in *; subst. f_equal. lia.
  - apply open_body_cons in Hopen as [H0 Hopen]. cbn [scan].
    rewrite depth_cons.
    destruct (is_skipped l) eqn:Hs.
    + rewrite loop_body_skipped by assumption.
      rewrite line_braces_skipped in * by assumption.
      rewrite Z.add_0_r in Hopen. rewrite IH by assumption. f_equal.
    + rewrite loop_body_inside by assumption.
      rewrite line_braces_read in * by assumption.
      specialize (H0 eq_refl).
      destruct (brace_count st + braces (Text.strip l) =? 0) eqn:E; [lia|].
      rewrite IH; [|reflexivity|exact Hopen]. cbn. f_equal. lia.
Qed.

End Scanner.

(** ** The invariant of the loop *)

Lemma StronglySorted_snoc {A : Type} (R : A -> A -> Prop) l x :
  StronglySorted R l -> Forall (fun a => R a x) l ->
  StronglySorted R (l ++ [x]).
Proof.
  induction 1 as [|a l Hs IH Ha]; intros Hx; cbn [app].
  - repeat constructor.
  - inversion Hx as [|? ? Hax Hx']; subst. constructor; [now apply IH|].
    apply Forall_app; split; [exact Ha|now constructor].
Qed.

Lemma closed_in_snoc path lines l r :
  closed_in path lines r -> closed_in path (lines ++ [l]) r.
Proof.
  intros (pre & sig & mid & close & post & -> & H).
  exists pre, sig, mid, close, (post ++ [l]). split; [|exact H].
  rewrite <- app_assoc. cbn [app]. now rewrite <- app_assoc.
Qed.

Lemma closed_in_bounds path lines r :
  closed_in path lines r ->
  1 <= fn_start r /\ 2 <= fn_length r /\ fn_end r <= len lines.
Proof.
  intros (pre & sig & mid & close & post & -> & Hs & Hl & _).
  unfold fn_end. rewrite Hs, Hl, len_app, len_cons, len_app, len_cons.
  pose proof (len_nonneg pre). pose proof (len_nonneg mid).
  pose proof (len_nonneg post). lia.
Qed.

Lemma pending_snoc lines l st b :
  pending lines st ->
  (is_skipped l = false -> brace_count st + line_braces l <> 0) ->
  pending (lines ++ [l])
    (mkState (functions st) b (func_start st) (func_name st)
       (brace_count st + line_braces l)).
Proof.
  intros (pre & sig & mid & -> & Hs & Hsig & Hopen & Hc) Hl.
  exists pre, sig, (mid ++ [l]). cbn.
  repeat split; try assumption.
  - rewrite <- app_assoc. reflexivity.
  - apply open_body_snoc. split; [exact Hopen|].
    intros Hr. specialize (Hl Hr). lia.
  - rewrite depth_app, depth_cons. cbn [depth fold_right]. lia.
Qed.

Section Invariant.

Variable file_path : string.

Lemma loop_body_invariant lines l st :
  invariant file_path lines st ->
  invariant file_path (lines ++ [l])
    (loop_body file_path (len lines + 1) l st).
Proof.
  intros (Hrec & Hsort & Hpend).
  assert (Hrec' : Forall (closed_in file_path (lines ++ [l])) (functions st)).
  { eapply Forall_impl; [|exact Hrec]. intros r. apply closed_in_snoc. }
  destruct (in_function st) eqn:Hin.
  - destruct (Hpend eq_refl) as [Hp Hends].
    destruct (is_skipped l) eqn:Hs.
    + rewrite loop_body_skipped by assumption.
      repeat split; try assumption.
      apply (pending_snoc lines l st true) in Hp; [|congruence].
      rewrite line_braces_skipped, Z.add_0_r in Hp by assumption.
      destruct st; cbn in *; subst; exact Hp.
    + rewrite loop_body_inside by assumption.
      rewrite <- (line_braces_read l Hs).
      destruct (brace_count st + line_braces l =? 0) eqn:E; cbn.
      * split; [|split; [|discriminate]].
        -- apply Forall_app; split; [exact Hrec'|]. constructor; [|constructor].
           destruct Hp as (pre & sig & mid & -> & Hst & Hsig & Hopen & Hc).
           exists pre, sig, mid, l, [].
           cbn [fn_start fn_length fn_name fn_path].
           split; [now rewrite <- app_assoc|]. split; [exact Hst|].
           split; [rewrite Hst, len_app, len_cons; lia|].
           split; [exact Hsig|]. split; [exact Hopen|]. split; [exact Hs|].
           split; [|reflexivity].
           rewrite <- (line_braces_read l Hs). lia.
        -- apply StronglySorted_snoc; [exact Hsort|exact Hends].
      * repeat split; try assumption.
        apply pending_snoc; [exact Hp|]. intros _. lia.
  - destruct (line_signature l) as [name|] eqn:Hsig.
    + rewrite (loop_body_signature file_path _ l st name) by assumption.
      repeat split; cbn; try assumption.
      * exists lines, l, []. cbn. repeat split; try assumption.
        -- apply open_body_nil.
        -- lia.
      * eapply Forall_impl; [|exact Hrec]. intros r Hr.
        apply closed_in_bounds in Hr. lia.
    + rewrite loop_body_idle by assumption.
      split; [exact Hrec'|split; [exact Hsort|]]. intros H. congruence.
Qed.

Lemma run_invariant lines : invariant file_path lines (run file_path lines).
Proof.
  induction lines as [|l lines IH] using rev_ind.
  - repeat split; cbn; try constructor; discriminate.
  - rewrite run_snoc. now apply loop_body_invariant.
Qed.

Lemma find_functions_closed lines r :
  In r (find_functions file_path (Some lines)) -> closed_in file_path lines r.
Proof.
  intros Hr. destruct (run_invariant lines) as (Hrec & _).
  rewrite Forall_forall in Hrec. now apply Hrec.
Qed.

Lemma find_functions_sorted lines :
  StronglySorted before (find_functions file_path (Some lines)).
Proof. now destruct (run_invariant lines) as (_ & Hs & _). Qed.

End Invariant.

(** ** The pattern on some lines *)

Example signature_static_pointer :
  signature "static int *main(void) {" = Some "main".
Proof. reflexivity. Qed.

Example signature_without_brace : signature "void g ()" = Some "g".
Proof. reflexivity. Qed.

Example signature_static_as_type : signature "static foo()" = Some "foo".
Proof. reflexivity. Qed.

Example signature_prototype : signature "int foo();" = None.
Proof. reflexivity. Qed.

Example signature_one_line_body : signature "int foo() { return 0; }" = None.
Proof. reflexivity. Qed.

Example signature_typedef : signature "typedef foo()" = None.
Proof. reflexivity. Qed.

Example signature_keyword : signature "else if (x) {" = Some "if".
Proof. reflexivity. Qed.

Example signature_latin1_name :
  signature ("int caf" ++ String "233" "(void) {") = Some ("caf" ++ String "233" "")%string.
Proof. reflexivity. Qed.

Example strip_no_break_space :
  Text.strip (String "160" "int f() {" ++ String "133" "") = "int f() {".
Proof. reflexivity. Qed.

Example scan_no_break_space_indent :
  find_functions "a.c"
    (Some [String "160" "int f() {"; "int g() {"; "}"; "}"])
  = [mkRecord "f" 1 4 "a.c"].
Proof. reflexivity. Qed.

Example scan_no_break_space_comment :
  find_functions "a.c" (Some ["int g() {"; String "160" "// {"; "}"])
  = [mkRecord "g" 1 3 "a.c"].
Proof. reflexivity. Qed.

Example strip_line :
  Text.strip (String "009" "  int x; " ++ String "010" "") = "int x;".
Proof. reflexivity. Qed.

(** ** The scanner: the properties *)

Lemma skip_condition line :
  Text.strip line = ""
  \/ Text.startswith "//" (Text.strip line) = true
  \/ Text.startswith "#" (Text.strip line) = true ->
  is_skipped line = true.
Proof.
  unfold is_skipped, skipped. intros [-> | [-> | ->]];
    rewrite ?orb_true_r; reflexivity.
Qed.

Lemma sorted_starts_nodup (l : list FunctionRecord) :
  StronglySorted before l ->
  Forall (fun r => 1 <= fn_length r) l ->
  NoDup (map (fun r => (fn_path r, fn_start r)) l).
Proof.
  induction 1 as [|a l Hs IH Ha]; intros Hl; cbn [map]; [constructor|].
  inversion Hl as [|? ? Hla Hl']; subst. constructor; [|now apply IH].
  intros Hin. apply in_map_iff in Hin as (b & Hb & Hbl).
  rewrite Forall_forall in Ha. specialize (Ha b Hbl).
  unfold before, fn_end in Ha. injection Hb as _ Hb. lia.
Qed.

(** C1. A file with exactly one function definition, a signature line
    followed by a body whose brace depth first comes back to zero on the
    N-th line of the function, gives exactly one record: its length is N
    and its start line is the 1-based index of the signature line. *)
Theorem single_function_record path pre sig name mid close post :
  Forall (fun l => line_signature l = None) pre ->
  line_signature sig = Some name ->
  open_body (braces (Text.strip sig)) mid ->
  is_skipped close = false ->
  braces (Text.strip sig) + depth mid + braces (Text.strip close) = 0 ->
  Forall (fun l => line_signature l = None) post ->
  find_functions path (Some (pre ++ sig :: mid ++ close :: post))
  = [mkRecord name (len pre + 1) (len mid + 2) path].
Proof.
  intros Hpre Hsig Hopen Hclose Hzero Hpost. unfold find_functions.
  rewrite scan_app, (scan_idle path pre) by (assumption || reflexivity).
  cbn [scan].
  rewrite (loop_body_signature path _ sig init name) by (assumption || reflexivity).
  rewrite scan_app, (scan_open path mid); [|reflexivity|exact Hopen].
  cbn [scan functions func_start func_name brace_count].
  rewrite loop_body_inside by (assumption || reflexivity).
  cbn [functions func_start func_name brace_count in_function].
  apply Z.eqb_eq in Hzero. rewrite Hzero.
  rewrite scan_idle by (assumption || reflexivity).
  cbn [functions init app]. f_equal. f_equal; lia.
Qed.

Lemma single_function_record_witness :
  find_functions "a.c"
    (Some ["#include <stdio.h>"; ""; "int main(void) {"; "  return 0;"; "}"; ""])
  = [mkRecord "main" 3 3 "a.c"].
Proof.
  apply (single_function_record "a.c" ["#include <stdio.h>"; ""]
           "int main(void) {" "main" ["  return 0;"] "}" [""]).
  - repeat constructor.
  - reflexivity.
  - apply open_body_cons. split; [intros _; vm_compute; discriminate|].
    apply open_body_nil.
  - reflexivity.
  - reflexivity.
  - repeat constructor.
Defined.

(** C3. Only functions whose closing line was read give a record; a
    function detected at a signature line whose brace depth never comes
    back to zero before the end of the file gives none, and the records
    are those of the lines before it. *)
Theorem unterminated_function_dropped path :
  (forall lines r,
     In r (find_functions path (Some lines)) -> closed_in path lines r)
  /\ (forall pre sig name body,
        in_function (run path pre) = false ->
        line_signature sig = Some name ->
        open_body (braces (Text.strip sig)) body ->
        find_functions path (Some (pre ++ sig :: body))
        = find_functions path (Some pre)
        /\ forall r, In r (find_functions path (Some (pre ++ sig :: body))) ->
             fn_end r <= len pre).
Proof.
  split; [apply find_functions_closed|].
  intros pre sig name body Hin Hsig Hopen.
  assert (E : find_functions path (Some (pre ++ sig :: body))
              = find_functions path (Some pre)).
  { unfold find_functions. rewrite scan_app. fold (run path pre). cbn [scan].
    rewrite (loop_body_signature path _ sig _ name) by assumption.
    now rewrite (scan_open path body); [|reflexivity|exact Hopen]. }
  split; [exact E|]. intros r Hr. rewrite E in Hr.
  apply find_functions_closed, closed_in_bounds in Hr. tauto.
Qed.

Lemma unterminated_function_dropped_witness :
  find_functions "a.c" (Some ["int f() {"; "}"; "int g() {"; "x = 1;"])
  = [mkRecord "f" 1 2 "a.c"]
  /\ closed_in "a.c" ["int f() {"; "}"] (mkRecord "f" 1 2 "a.c").
Proof.
  split.
  - apply (proj2 (unterminated_function_dropped "a.c")
             ["int f() {"; "}"] "int g() {" "g" ["x = 1;"]).
    + reflexivity.
    + reflexivity.
    + apply open_body_cons. split; [intros _; vm_compute; discriminate|].
      apply open_body_nil.
  - apply (proj1 (unterminated_function_dropped "a.c")). now left.
Defined.

(** C4. A line whose trimmed form is empty or begins with [//] or with
    [#] leaves the whole state of the scanner as it is, the brace count
    included, inside a function as outside; the records of a file do not
    depend on what such a line holds. *)
Theorem skipped_line_counts_no_braces path i line st :
  Text.strip line = ""
  \/ Text.startswith "//" (Text.strip line) = true
  \/ Text.startswith "#" (Text.strip line) = true ->
  loop_body path i line st = st
  /\ forall l1 l2,
       find_functions path (Some (l1 ++ line :: l2))
       = find_functions path (Some (l1 ++ "" :: l2)).
Proof.
  intros H. apply skip_condition in H. split.
  - now apply loop_body_skipped.
  - intros l1 l2. unfold find_functions. rewrite !scan_app. cbn [scan].
    now rewrite !loop_body_skipped by (assumption || reflexivity).
Qed.

Lemma skipped_line_counts_no_braces_witness :
  loop_body "a.c" 2 "#define END }" (run "a.c" ["int f() {"])
  = run "a.c" ["int f() {"]
  /\ find_functions "a.c" (Some ["int f() {"; "#define END }"; "}"])
     = find_functions "a.c" (Some ["int f() {"; ""; "}"]).
Proof.
  destruct (skipped_line_counts_no_braces "a.c" 2 "#define END }"
              (run "a.c" ["int f() {"])) as [H1 H2].
  - right; right; reflexivity.
  - split; [exact H1|exact (H2 ["int f() {"] ["}"])].
Defined.

(** C5, as the code has it. Inside a function a line whose trimmed form
    is empty or begins with [//] is skipped exactly as a preprocessor
    line is: its braces are not counted, and the function stays open. *)
Theorem comment_line_skipped_inside path i line st :
  in_function st = true ->
  Text.strip line = ""
  \/ Text.startswith "//" (Text.strip line) = true
  \/ Text.startswith "#" (Text.strip line) = true ->
  brace_count (loop_body path i line st) = brace_count st
  /\ in_function (loop_body path i line st) = true
  /\ functions (loop_body path i line st) = functions st.
Proof.
  intros Hin H. apply skip_condition in H.
  rewrite loop_body_skipped by assumption. auto.
Qed.

Lemma comment_line_skipped_inside_witness :
  brace_count (loop_body "a.c" 2 "// }" (run "a.c" ["int f() {"])) = 1
  /\ in_function (loop_body "a.c" 2 "// }" (run "a.c" ["int f() {"])) = true
  /\ functions (loop_body "a.c" 2 "// }" (run "a.c" ["int f() {"])) = [].
Proof.
  apply (comment_line_skipped_inside "a.c" 2 "// }" (run "a.c" ["int f() {"])).
  - reflexivity.
  - right; left; reflexivity.
Defined.

(** C5 as stated fails: inside the function opened by [int f() {] the
    comment line [// }] holds a closing brace, and the brace count stays
    at 1 where counting the brace would give 0; the function then ends
    on the third line, not on the second. *)
Lemma comment_braces_counted_counterexample :
  in_function (run "a.c" ["int f() {"]) = true
  /\ Text.startswith "//" (Text.strip "// }") = true
  /\ brace_count (loop_body "a.c" 2 "// }" (run "a.c" ["int f() {"]))
     <> brace_count (run "a.c" ["int f() {"]) + braces (Text.strip "// }")
  /\ find_functions "a.c" (Some ["int f() {"; "// }"; "}"])
     = [mkRecord "f" 1 3 "a.c"].
Proof.
  repeat split; vm_compute; congruence.
Qed.

(** C9. Every record has a length and a start line of at least 1, and
    no two records of one scan have the same path and start line. *)
Theorem records_well_formed path contents :
  (forall r, In r (find_functions path contents) ->
     1 <= fn_length r /\ 1 <= fn_start r)
  /\ NoDup (map (fun r => (fn_path r, fn_start r))
              (find_functions path contents)).
Proof.
  destruct contents as [lines|]; [|split; [intros r []|constructor]].
  assert (H : forall r, In r (find_functions path (Some lines)) ->
                1 <= fn_length r /\ 1 <= fn_start r).
  { intros r Hr. apply find_functions_closed, closed_in_bounds in Hr. lia. }
  split; [exact H|].
  apply sorted_starts_nodup; [apply find_functions_sorted|].
  apply Forall_forall. intros r Hr. now apply H.
Qed.

Lemma records_well_formed_witness :
  1 <= fn_length (mkRecord "f" 1 2 "a.c") /\ 1 <= fn_start (mkRecord "f" 1 2 "a.c").
Proof.
  apply (proj1 (records_well_formed "a.c"
                  (Some ["int f() {"; "}"; "int g()"; "{"; "}"]))).
  now left.
Defined.

(** C10. Every record has a length of at least 2: a signature line only
    opens its function, whatever its brace count, and the end of the
    function is looked for from the next line on. *)
Theorem records_span_two_lines path contents :
  (forall r, In r (find_functions path contents) -> 2 <= fn_length r)
  /\ (forall i line name st,
        in_function st = false ->
        line_signature line = Some name ->
        functions (loop_body path i line st) = functions st
        /\ in_function (loop_body path i line st) = true
        /\ func_start (loop_body path i line st) = i).
Proof.
  split.
  - destruct contents as [lines|]; [|intros r []].
    intros r Hr. apply find_functions_closed, closed_in_bounds in Hr. lia.
  - intros i line name st Hin Hsig.
    rewrite (loop_body_signature path i line st name) by assumption.
    auto.
Qed.

Lemma records_span_two_lines_witness :
  2 <= fn_length (mkRecord "f" 1 2 "a.c")
  /\ braces (Text.strip "int f()") = 0
  /\ functions (loop_body "a.c" 1 "int f()" init) = []
  /\ in_function (loop_body "a.c" 1 "int f()" init) = true.
Proof.
  split; [|split; [reflexivity|]].
  - apply (proj1 (records_span_two_lines "a.c" (Some ["int f()"; "x;"]))).
    now left.
  - destruct (proj2 (records_span_two_lines "a.c" None) 1 "int f()" "f" init)
      as (H1 & H2 & _); [reflexivity|reflexivity|].
    split; [exact H1|exact H2].
Defined.

(** ** The report: strings *)

Lemma string_length_append (a b : string) :
  String.length (a ++ b)%string = (String.length a + String.length b)%nat.
Proof. induction a as [|c a IH]; cbn; [reflexivity|now rewrite IH]. Qed.







Lemma nth_error_enumerate {A : Type} (l : list A) : forall start k x,
  nth_error l k = Some x ->
  nth_error (Text.enumerate start l) k = Some (start + Z.of_nat k, x).
Proof.
  induction l as [|y l IH]; intros start [|k] x H; try discriminate.
  - injection H as ->. cbn. do 2 f_equal. lia.
  - cbn [Text.enumerate nth_error]. rewrite (IH _ _ _ H). do 2 f_equal. lia.
Qed.

Lemma enumerate_length {A : Type} (l : list A) : forall start,
  List.length (Text.enumerate start l) = List.length l.
Proof. induction l as [|y l IH]; intros start; cbn; [reflexivity|now rewrite IH]. Qed.

(** ** The report: [main] *)


Lemma main_report argv w :
  2 <= len argv ->
  let recs := collect w (nth 1 argv "") in
  let top := firstn 5 (sort_desc fn_length recs) in
  main argv w
  = (header :: map (fun '(i, f) => entry i f) (Text.enumerate 1 top)
       ++ (if 0 <? long_count recs then [count_line (long_count recs)] else []),
     if 0 <? long_count recs then 1 else 0).
Proof.
  intros H recs top. unfold main.
  destruct (Z.of_nat (List.length argv) <? 2) eqn:E; [unfold len in H; lia|].
  fold recs. fold top.
  assert (Hc : long_count recs
               = len (filter (fun f => 150 <? fn_length f)
                        (sort_desc fn_length recs))).
  { unfold long_count, len. now rewrite sort_desc_filter_length. }
  destruct (filter (fun f => 150 <? fn_length f) (sort_desc fn_length recs))
    as [|x long] eqn:F; rewrite Hc.
  - cbn. now rewrite app_nil_r.
  - rewrite len_cons. pose proof (len_nonneg long).
    destruct (0 <? len long + 1) eqn:E'; [|lia].
    unfold len. cbn [List.length app].
    replace (Z.of_nat (S (List.length long)))
      with (Z.of_nat (List.length long) + 1) by lia.
    reflexivity.
Qed.



(** C6. The sort puts the records in descending order of length and
    keeps, among the records of one length, the order in which they were
    found; a list already in descending order of length is left as it
    is. *)
Theorem sort_stable_descending (recs : list FunctionRecord) :
  Permutation recs (sort_desc fn_length recs)
  /\ StronglySorted (desc fn_length) (sort_desc fn_length recs)
  /\ (forall n, filter (has_length n) (sort_desc fn_length recs)
                = filter (has_length n) recs)
  /\ (StronglySorted (desc fn_length) recs -> sort_desc fn_length recs = recs).
Proof.
  split; [apply sort_desc_perm|]. split; [apply sort_desc_sorted|].
  split; [intros n; apply sort_desc_filter|apply sort_desc_sorted_id].
Qed.

Lemma sort_stable_descending_witness :
  sort_desc fn_length
    [mkRecord "f" 1 60 "a.c"; mkRecord "g" 70 20 "a.c"; mkRecord "h" 1 20 "b.c"]
  = [mkRecord "f" 1 60 "a.c"; mkRecord "g" 70 20 "a.c"; mkRecord "h" 1 20 "b.c"].
Proof.
  apply (proj2 (proj2 (proj2 (sort_stable_descending _)))).
  repeat constructor; vm_compute; congruence.
Defined.

(** C7. After the header the report prints the first min(5, total)
    records of the sorted list, those of greatest length in descending
    order of length, each as
    [{rank}. {name} ({source_path}:{start_line}) - {length} lines] with
    the ranks counted from 1; the records beyond the fifth are left
    out, and nothing but the count line can follow the entries. *)
Theorem report_top_five argv w :
  2 <= len argv ->
  let recs := collect w (nth 1 argv "") in
  let sorted := sort_desc fn_length recs in
  let top := firstn 5 sorted in
  let rest := skipn 5 sorted in
  exists tail,
    fst (main argv w)
    = header :: map (fun '(i, f) => entry i f) (Text.enumerate 1 top) ++ tail
    /\ (tail = [] \/ exists n, tail = [count_line n])
    /\ List.length top = Nat.min 5 (List.length recs)
    /\ (forall k f, nth_error top k = Some f ->
          nth_error (fst (main argv w)) (S k)
          = Some (Text.str (Z.of_nat k + 1) ++ ". " ++ fn_name f ++ " ("
                  ++ fn_path f ++ ":" ++ Text.str (fn_start f) ++ ") - "
                  ++ Text.str (fn_length f) ++ " lines")%string)
    /\ Permutation recs (top ++ rest)
    /\ StronglySorted (desc fn_length) top
    /\ (forall f g, In f top -> In g rest -> fn_length g <= fn_length f).
Proof.
  intros H recs sorted top rest.
  pose proof (sort_desc_sorted fn_length recs) as Hsorted.
  fold sorted in Hsorted. rewrite <- (firstn_skipn 5 sorted) in Hsorted.
  apply sorted_app_inv in Hsorted as (Htop & _ & Hcut).
  exists (if 0 <? long_count recs then [count_line (long_count recs)] else []).
  rewrite (main_report argv w H). fold recs. fold sorted. fold top.
  cbn [fst]. split; [reflexivity|].
  split; [destruct (0 <? long_count recs); eauto|].
  split.
  { unfold top. rewrite length_firstn. f_equal. unfold sorted.
    symmetry. apply Permutation_length, sort_desc_perm. }
  split.
  { intros k f Hk. cbn [nth_error]. rewrite nth_error_app1.
    - rewrite nth_error_map, (nth_error_enumerate top 1 k f Hk).
      cbn [option_map].
      now replace (1 + Z.of_nat k) with (Z.of_nat k + 1) by lia.
    - rewrite length_map, enumerate_length. apply nth_error_Some. congruence. }
  split.
  { unfold top, rest. rewrite firstn_skipn. apply sort_desc_perm. }
  split; [exact Htop|]. intros f g Hf Hg. exact (Hcut f g Hf Hg).
Qed.

Lemma report_top_five_witness :
  nth_error
    (fst (main ["prog"; "src"]
            (mkWorld (fun _ => ["a.c"])
               (fun _ => Some [""; "static char *name(void)"; "{"; "}"]))))
    1
  = Some "1. name (a.c:2) - 3 lines".
Proof.
  assert (Hlen : 2 <= len ["prog"; "src"]) by (vm_compute; congruence).
  destruct (report_top_five ["prog"; "src"]
              (mkWorld (fun _ => ["a.c"])
                 (fun _ => Some [""; "static char *name(void)"; "{"; "}"]))
              Hlen) as (tail & _ & _ & _ & H & _).
  exact (H 0%nat (mkRecord "name" 2 3 "a.c") eq_refl).
Defined.

(** C8. A file that cannot be opened or read gives the empty list, and
    the run goes on: the collected records are those of the other
    files. *)
Theorem unreadable_file_skipped path :
  find_functions path None = []
  /\ forall w src_dir before_it after_it,
       rglob_c w src_dir = before_it ++ path :: after_it ->
       read w path = None ->
       collect w src_dir
       = flat_map (fun c_file => find_functions c_file (read w c_file))
           (before_it ++ after_it).
Proof.
  split; [reflexivity|]. intros w src_dir l1 l2 Hglob Hread.
  unfold collect. rewrite Hglob, !flat_map_app. cbn [flat_map].
  now rewrite Hread.
Qed.

Lemma unreadable_file_skipped_witness :
  collect
    (mkWorld (fun _ => ["a.c"; "b.c"])
       (fun p => if String.eqb p "a.c" then None else Some ["int f() {"; "}"]))
    "src"
  = [mkRecord "f" 1 2 "b.c"].
Proof.
  apply (proj2 (unreadable_file_skipped "a.c")
           (mkWorld (fun _ => ["a.c"; "b.c"])
              (fun p => if String.eqb p "a.c" then None
                        else Some ["int f() {"; "}"]))
           "src" [] ["b.c"]); reflexivity.
Defined.

(** ** Further properties of the scanner *)

(** X1. A file none of whose lines is a signature line gives no record. *)
Theorem no_signature_no_records path lines :
  Forall (fun l => line_signature l = None) lines ->
  find_functions path (Some lines) = [].
Proof.
  intros H. unfold find_functions. now rewrite scan_idle.
Qed.

Lemma no_signature_no_records_witness :
  find_functions "a.c"
    (Some ["#include <a.h>"; "int x = 0;"; "int f(void);"; "struct s {"; "};"])
  = [].
Proof. apply no_signature_no_records. repeat constructor. Defined.

Lemma before_total (l : list FunctionRecord) : forall lo hi,
  StronglySorted before l ->
  Forall (fun r => lo <= fn_start r /\ fn_end r <= hi) l ->
  lo <= hi + 1 ->
  total_length l <= hi - lo + 1.
Proof.
  induction l as [|a l IH]; intros lo hi Hs Hb Hlo; cbn [total_length fold_right].
  - lia.
  - fold (total_length l).
    apply StronglySorted_inv in Hs as [Hs Ha].
    inversion Hb as [|? ? [Ha1 Ha2] Hb']; subst.
    assert (IHl : total_length l <= hi - (fn_end a + 1) + 1).
    { apply IH; [exact Hs| |lia].
      rewrite Forall_forall in *. intros r Hr.
      specialize (Ha r Hr). specialize (Hb' r Hr). unfold before in Ha. lia. }
    unfold fn_end in *. lia.
Qed.

(** X2. The records come in the order of the file and do not overlap:
    each one ends before the next one starts, and all lie within the
    lines of the file and carry the path that was scanned. *)
Theorem records_ordered_within_file path lines :
  StronglySorted (fun a b => fn_start a + fn_length a <= fn_start b)
    (find_functions path (Some lines))
  /\ forall r, In r (find_functions path (Some lines)) ->
       fn_start r + fn_length r - 1 <= len lines /\ fn_path r = path.
Proof.
  split.
  - pose proof (find_functions_sorted path lines) as H.
    induction H as [|a l Hs IH Ha]; constructor; [exact IH|].
    eapply Forall_impl; [|exact Ha]. unfold before, fn_end. intros; lia.
  - intros r Hr. apply find_functions_closed in Hr.
    split; [now apply closed_in_bounds in Hr|].
    now destruct Hr as (? & ? & ? & ? & ? & _ & _ & _ & _ & _ & _ & _ & Hp).
Qed.

Lemma records_ordered_within_file_witness :
  fn_start (mkRecord "g" 3 2 "a.c") + fn_length (mkRecord "g" 3 2 "a.c") - 1
  <= len ["int f() {"; "}"; "int g() {"; "}"]
  /\ fn_path (mkRecord "g" 3 2 "a.c") = "a.c".
Proof.
  apply (proj2 (records_ordered_within_file "a.c"
                  ["int f() {"; "}"; "int g() {"; "}"])).
  right; now left.
Defined.

(** X3. The lengths of the records of a file add up to at most the
    number of its lines. *)
Theorem total_length_bounded path lines :
  total_length (find_functions path (Some lines)) <= len lines.
Proof.
  pose proof (before_total (find_functions path (Some lines)) 1 (len lines)
                (find_functions_sorted path lines)) as H.
  pose proof (len_nonneg lines).
  enough (total_length (find_functions path (Some lines)) <= len lines - 1 + 1)
    by lia.
  apply H; [|lia].
  apply Forall_forall. intros r Hr.
  apply find_functions_closed, closed_in_bounds in Hr. lia.
Qed.

(** X4. Every record the run collects belongs to a path of the
    traversal whose file could be read, and is a closed function of the
    lines of that file. *)
Theorem collected_record_origin w src_dir r :
  In r (collect w src_dir) ->
  In (fn_path r) (rglob_c w src_dir)
  /\ exists lines,
       read w (fn_path r) = Some lines /\ closed_in (fn_path r) lines r.
Proof.
  unfold collect. intros H. apply in_flat_map in H as (p & Hp & Hr).
  destruct (read w p) as [lines|] eqn:E; [|destruct Hr].
  apply find_functions_closed in Hr.
  assert (Hpath : fn_path r = p)
    by now destruct Hr as (? & ? & ? & ? & ? & _ & _ & _ & _ & _ & _ & _ & Hp').
  rewrite Hpath. split; [exact Hp|]. now exists lines.
Qed.

Lemma collected_record_origin_witness :
  In "b.c" ["a.c"; "b.c"]
  /\ exists lines,
       (if String.eqb "b.c" "a.c" then None else Some ["int f() {"; "}"])
       = Some lines
       /\ closed_in "b.c" lines (mkRecord "f" 1 2 "b.c").
Proof.
  apply (collected_record_origin
           (mkWorld (fun _ => ["a.c"; "b.c"])
              (fun p => if String.eqb p "a.c" then None
                        else Some ["int f() {"; "}"]))
           "src" (mkRecord "f" 1 2 "b.c")).
  now left.
Defined.

(** ** Scanning a file piece by piece *)

Lemma same_state_refl st : same_state st st.
Proof. repeat split. Qed.

Section Pieces.

Variable file_path : string.

Lemma loop_body_same i l a b :
  same_state a b ->
  same_state (loop_body file_path i l a) (loop_body file_path i l b).
Proof.
  intros (Hf & Hi & Hr).
  destruct (is_skipped l) eqn:Hs.
  - rewrite !loop_body_skipped by assumption.
    split; [exact Hf|split; [exact Hi|exact Hr]].
  - destruct (in_function a) eqn:Ha.
    + destruct (Hr eq_refl) as (H1 & H2 & H3). symmetry in Hi.
      rewrite !loop_body_inside by assumption.
      rewrite <- Hf, <- H1, <- H2, <- H3. apply same_state_refl.
    + symmetry in Hi. destruct (line_signature l) as [name|] eqn:Hsig.
      * rewrite (loop_body_signature file_path i l a name) by assumption.
        rewrite (loop_body_signature file_path i l b name) by assumption.
        rewrite Hf. apply same_state_refl.
      * rewrite !loop_body_idle by assumption.
        split; [exact Hf|]. split; [congruence|]. intros H. congruence.
Qed.

Lemma scan_same ls : forall i a b,
  same_state a b ->
  same_state (scan file_path i ls a) (scan file_path i ls b).
Proof.
  induction ls as [|l ls IH]; intros i a b H; cbn [scan]; [exact H|].
  apply IH. now apply loop_body_same.
Qed.

Lemma loop_body_relocate k found i l st :
  loop_body file_path (i + k) l (relocate k found st)
  = relocate k found (loop_body file_path i l st).
Proof.
  destruct (is_skipped l) eqn:Hs.
  - now rewrite !loop_body_skipped by assumption.
  - destruct (in_function st) eqn:Hin.
    + rewrite !loop_body_inside by assumption.
      cbn [relocate functions in_function func_start func_name brace_count].
      destruct (brace_count st + braces (Text.strip l) =? 0); unfold relocate;
        cbn [functions in_function func_start func_name brace_count];
        [|reflexivity].
      rewrite map_app, app_assoc. cbn [map]. unfold shift at 2.
      cbn [fn_name fn_start fn_length fn_path].
      now replace (i + k - (func_start st + k) + 1) with (i - func_start st + 1)
        by lia.
    + destruct (line_signature l) as [name|] eqn:Hsig.
      * rewrite (loop_body_signature file_path (i + k) l _ name) by assumption.
        now rewrite (loop_body_signature file_path i l st name) by assumption.
      * now rewrite !loop_body_idle by assumption.
Qed.

Lemma scan_relocate k found ls : forall i st,
  scan file_path (i + k) ls (relocate k found st)
  = relocate k found (scan file_path i ls st).
Proof.
  induction ls as [|l ls IH]; intros i st; cbn [scan]; [reflexivity|].
  rewrite loop_body_relocate.
  replace (i + k + 1) with (i + 1 + k) by lia. apply IH.
Qed.

End Pieces.

(** X5. When the lines [pre] do not end inside a function, the records
    of [pre ++ post] are those of [pre] followed by those of [post] on
    its own, with the start lines moved by the number of lines of
    [pre]. *)
Theorem find_functions_app path pre post :
  in_function (run path pre) = false ->
  find_functions path (Some (pre ++ post))
  = find_functions path (Some pre)
    ++ map (shift (len pre)) (find_functions path (Some post)).
Proof.
  intros Hin. unfold find_functions. rewrite scan_app. fold (run path pre).
  assert (H : same_state (run path pre)
                (relocate (len pre) (functions (run path pre)) init)).
  { split; [cbn; now rewrite app_nil_r|]. split; [exact Hin|].
    intros H. congruence. }
  apply (scan_same path post (1 + len pre)) in H.
  destruct H as (-> & _). now rewrite scan_relocate.
Qed.

Lemma find_functions_app_witness :
  find_functions "a.c" (Some (["int f() {"; "}"; ""] ++ ["int g()"; "{"; "}"]))
  = find_functions "a.c" (Some ["int f() {"; "}"; ""])
    ++ map (shift 3) (find_functions "a.c" (Some ["int g()"; "{"; "}"])).
Proof.
  apply (find_functions_app "a.c" ["int f() {"; "}"; ""] ["int g()"; "{"; "}"]).
  reflexivity.
Defined.

(** ** Indentation *)

Lemma rstrip_idempotent (s : string) : Text.rstrip (Text.rstrip s) = Text.rstrip s.
Proof.
  induction s as [|c s IH]; [reflexivity|]. cbn [Text.rstrip].
  destruct (Text.rstrip s) as [|d t] eqn:E.
  - destruct (Text.isspace c) eqn:Ec; [reflexivity|].
    cbn [Text.rstrip]. now rewrite Ec.
  - cbn [Text.rstrip]. cbn [Text.rstrip] in IH. now rewrite IH.
Qed.

Lemma rstrip_head (c : ascii) (s : string) :
  Text.isspace c = false -> exists t, Text.rstrip (String c s) = String c t.
Proof.
  intros Hc. cbn [Text.rstrip]. destruct (Text.rstrip s) as [|d t].
  - rewrite Hc. now exists "".
  - now exists (String d t).
Qed.

Lemma lstrip_head (s : string) :
  Text.lstrip s = ""
  \/ exists c t, Text.lstrip s = String c t /\ Text.isspace c = false.
Proof.
  induction s as [|c s IH]; [now left|]. cbn [Text.lstrip].
  destruct (Text.isspace c) eqn:Ec; [exact IH|]. right. now exists c, s.
Qed.

Lemma strip_idempotent (s : string) : Text.strip (Text.strip s) = Text.strip s.
Proof.
  unfold Text.strip. destruct (lstrip_head s) as [->|(c & t & -> & Hc)].
  - reflexivity.
  - destruct (rstrip_head c t Hc) as (u & E).
    rewrite E at 1. cbn [Text.lstrip]. rewrite Hc, <- E.
    apply rstrip_idempotent.
Qed.

Lemma loop_body_strip path i l st :
  loop_body path i (Text.strip l) st = loop_body path i l st.
Proof. unfold loop_body. now rewrite strip_idempotent. Qed.

(** X6. The scanner reads every line through [strip]: the indentation
    of the lines and the white space and newline at their ends do not
    change the records. *)
Theorem indentation_irrelevant path lines :
  find_functions path (Some (map Text.strip lines))
  = find_functions path (Some lines).
Proof.
  unfold find_functions. f_equal. generalize 1, init.
  induction lines as [|l lines IH]; intros i st; cbn [map scan]; [reflexivity|].
  now rewrite loop_body_strip, IH.
Qed.

(** ** Further properties of the report *)

Lemma long_count_positive (recs : list FunctionRecord) :
  0 < long_count recs <-> exists r, In r recs /\ 150 < fn_length r.
Proof.
  unfold long_count, len. split.
  - destruct (filter _ recs) as [|r l] eqn:E; cbn [List.length]; [lia|].
    intros _. exists r.
    assert (H : In r (filter (fun f => 150 <? fn_length f) recs))
      by (rewrite E; now left).
    apply filter_In in H as [H1 H2]. split; [exact H1|lia].
  - intros (r & Hr & Hl).
    assert (H : In r (filter (fun f => 150 <? fn_length f) recs)).
    { apply filter_In. split; [exact Hr|]. now apply Z.ltb_lt. }
    destruct (filter _ recs); [destruct H|]. cbn [List.length]. lia.
Qed.

(** X7. With a directory argument the exit status is 1 exactly when the
    longest record, the first of the sorted list and of the report, has
    more than 150 lines; it is 0 otherwise. *)
Theorem exit_status_from_longest argv w :
  2 <= len argv ->
  let sorted := sort_desc fn_length (collect w (nth 1 argv "")) in
  (snd (main argv w) = 1 <->
   exists f, hd_error sorted = Some f /\ 150 < fn_length f)
  /\ (snd (main argv w) = 1 \/ snd (main argv w) = 0).
Proof.
  intros H sorted. rewrite (main_report argv w H). cbn [snd].
  set (recs := collect w (nth 1 argv "")) in *.
  pose proof (long_count_positive recs) as Hpos.
  pose proof (sort_desc_perm fn_length recs) as Hperm. fold sorted in Hperm.
  pose proof (sort_desc_sorted fn_length recs) as Hsort. fold sorted in Hsort.
  assert (Htop : (exists r, In r recs /\ 150 < fn_length r)
                 <-> exists f, hd_error sorted = Some f /\ 150 < fn_length f).
  { split.
    - intros (r & Hr & Hl). apply (Permutation_in _ Hperm) in Hr.
      destruct sorted as [|h t]; [destruct Hr|]. exists h. split; [reflexivity|].
      destruct Hr as [->|Hr]; [exact Hl|].
      apply StronglySorted_inv in Hsort as [_ Hh].
      rewrite Forall_forall in Hh. specialize (Hh r Hr). unfold desc in Hh. lia.
    - intros (f & Hf & Hl). exists f. split; [|exact Hl].
      apply (Permutation_in _ (Permutation_sym Hperm)).
      destruct sorted as [|h t]; [discriminate|]. injection Hf as ->. now left. }
  rewrite <- Htop, <- Hpos.
  destruct (0 <? long_count recs) eqn:E; split; try tauto; split; try lia;
    intros; discriminate || lia.
Qed.

Lemma exit_status_from_longest_witness :
  snd (main ["prog"; "src"]
         (mkWorld (fun _ => ["a.c"])
            (fun _ => Some ("int g() {" :: repeat "x;" 200 ++ ["}"])))) = 1.
Proof.
  assert (Hlen : 2 <= len ["prog"; "src"]) by (vm_compute; congruence).
  apply (proj1 (exit_status_from_longest ["prog"; "src"]
                  (mkWorld (fun _ => ["a.c"])
                     (fun _ => Some ("int g() {" :: repeat "x;" 200 ++ ["}"])))
                  Hlen)).
  exists (mkRecord "g" 1 202 "a.c"). split; [reflexivity|reflexivity].
Defined.

(** X8. When every file of the traversal is unreadable or has no
    signature line, also when there is no file at all, the run prints
    the header alone and exits with status 0. *)
Theorem nothing_found_report argv w :
  2 <= len argv ->
  (forall p, In p (rglob_c w (nth 1 argv "")) ->
     forall lines, read w p = Some lines ->
       Forall (fun l => line_signature l = None) lines) ->
  main argv w = ([header], 0).
Proof.
  intros H Hfiles. rewrite (main_report argv w H).
  assert (E : collect w (nth 1 argv "") = []).
  { unfold collect. induction (rglob_c w (nth 1 argv "")) as [|p ps IH];
      [reflexivity|]. cbn [flat_map].
    rewrite IH by (intros q Hq; apply Hfiles; now right).
    rewrite app_nil_r. destruct (read w p) as [lines|] eqn:Hr; [|reflexivity].
    apply no_signature_no_records. apply (Hfiles p); [now left|exact Hr]. }
  rewrite E. reflexivity.
Qed.

Lemma nothing_found_report_witness :
  main ["prog"; "src"]
    (mkWorld (fun _ => ["a.c"; "b.h.c"])
       (fun p => if String.eqb p "a.c" then None else Some ["int x;"; ""]))
  = ([header], 0).
Proof.
  apply nothing_found_report; [vm_compute; congruence|].
  intros p [<-|[<-|[]]] lines Hr; cbn in Hr; [discriminate|].
  injection Hr as <-. repeat constructor.
Defined.

(** ** What the matcher accepts *)

Lemma string_append_assoc (a b c : string) :
  ((a ++ b) ++ c)%string = (a ++ (b ++ c))%string.
Proof. induction a as [|x a IH]; cbn; [reflexivity|now rewrite IH]. Qed.

Lemma string_append_nil_r (a : string) : (a ++ "")%string = a.
Proof. induction a as [|x a IH]; cbn; [reflexivity|now rewrite IH]. Qed.

Lemma substring_middle (a b c : string) :
  substring (String.length a) (String.length b) (a ++ b ++ c)%string = b.
Proof.
  induction a as [|x a IH]; cbn [String.length append substring]; [|exact IH].
  induction b as [|y b IHb]; cbn [String.length append substring].
  - now destruct c.
  - now rewrite IHb.
Qed.

Lemma star_sound p : forall s pos g k m,
  Re.star p pos s g k = Some m ->
  exists w s', s = (w ++ s')%string /\ all_in p w = true
               /\ k (pos + String.length w)%nat s' g = Some m.
Proof.
  induction s as [|c s IH]; intros pos g k m H; cbn [Re.star] in H.
  - exists "", "". cbn. now rewrite Nat.add_0_r.
  - destruct (p c) eqn:Ec.
    + destruct (Re.star p (S pos) s g k) as [m'|] eqn:E.
      * injection H as ->. apply IH in E as (w & s' & -> & Hw & Hk).
        exists (String c w), s'. cbn. rewrite Ec, Hw.
        repeat split. now rewrite <- Nat.add_succ_comm.
      * exists "", (String c s). cbn. now rewrite Nat.add_0_r.
    + exists "", (String c s). cbn. now rewrite Nat.add_0_r.
Qed.

Lemma rmatch_sound r : forall pos s g k m,
  Re.rmatch r pos s g k = Some m ->
  exists pos' s' g', sem r pos s g pos' s' g' /\ k pos' s' g' = Some m.
Proof.
  induction r as [| |c|p|p|r IH|r1 IH1 r2 IH2|n r IH];
    intros pos s g k m H; cbn [Re.rmatch] in H.
  - destruct (Nat.eqb pos 0) eqn:E; [|discriminate].
    apply Nat.eqb_eq in E. exists pos, s, g. cbn. auto.
  - destruct s as [|c [|d s]]; try discriminate.
    + exists pos, "", g. cbn. auto.
    + destruct (Ascii.eqb c "010") eqn:E; [|discriminate].
      apply Ascii.eqb_eq in E. subst c. exists pos, (String "010" ""), g.
      cbn. auto.
  - destruct s as [|d s]; [discriminate|].
    destruct (Ascii.eqb c d) eqn:E; [|discriminate].
    apply Ascii.eqb_eq in E. subst d. exists (S pos), s, g. cbn. auto.
  - apply star_sound in H as (w & s' & -> & Hw & Hk).
    exists (pos + String.length w)%nat, s', g. split; [|exact Hk].
    exists w. auto.
  - destruct s as [|d s]; [discriminate|].
    destruct (p d) eqn:Ed; [|discriminate].
    apply star_sound in H as (w & s' & -> & Hw & Hk).
    exists (S pos + String.length w)%nat, s', g. split; [|exact Hk].
    exists (String d w). cbn. rewrite Ed, Hw.
    repeat split; [discriminate|lia].
  - destruct (Re.rmatch r pos s g k) as [m'|] eqn:E.
    + injection H as ->. apply IH in E as (pos' & s' & g' & Hs & Hk).
      exists pos', s', g'. split; [now right|exact Hk].
    + exists pos, s, g. split; [left; auto|exact H].
  - apply IH1 in H as (pos1 & s1 & g1 & H1 & H).
    apply IH2 in H as (pos' & s' & g' & H2 & Hk).
    exists pos', s', g'. split; [|exact Hk]. now exists pos1, s1, g1.
  - apply IH in H as (pos' & s' & g1 & Hs & Hk).
    exists pos', s', (Re.set_group n (pos, pos') g1). split; [|exact Hk].
    now exists g1.
Qed.

Lemma Lit_sem w rest : forall pos s g pos' s' g',
  sem (Re.Lit w rest) pos s g pos' s' g' ->
  exists s1, s = (w ++ s1)%string
             /\ sem rest (pos + String.length w)%nat s1 g pos' s' g'.
Proof.
  induction w as [|c w IH]; intros pos s g pos' s' g' H; cbn [Re.Lit] in H.
  - exists s. cbn. now rewrite Nat.add_0_r.
  - cbn [sem] in H. destruct H as (pos1 & s1 & g1 & (-> & -> & ->) & H).
    apply IH in H as (s2 & -> & H). exists s2. cbn.
    now rewrite <- Nat.add_succ_comm.
Qed.

Lemma sem_consumes r : forall pos s g pos' s' g',
  sem r pos s g pos' s' g' ->
  exists w, s = (w ++ s')%string /\ pos' = (pos + String.length w)%nat.
Proof.
  induction r as [| |c|p|p|r IH|r1 IH1 r2 IH2|n r IH];
    intros pos s g pos' s' g' H; cbn [sem] in H.
  - destruct H as (_ & -> & -> & _). exists "". cbn. auto.
  - destruct H as (_ & -> & -> & _). exists "". cbn. auto.
  - destruct H as (-> & -> & _). exists (String c ""). cbn.
    split; [reflexivity|lia].
  - destruct H as (w & -> & _ & -> & _). now exists w.
  - destruct H as (w & _ & -> & _ & -> & _). now exists w.
  - destruct H as [(-> & -> & _)|H]; [exists ""; cbn; auto|]. now apply IH in H.
  - destruct H as (pos1 & s1 & g1 & H1 & H2).
    apply IH1 in H1 as (w1 & -> & ->). apply IH2 in H2 as (w2 & -> & ->).
    exists (w1 ++ w2)%string.
    rewrite string_length_append, string_append_assoc. split; [reflexivity|lia].
  - destruct H as (g1 & H & _). now apply IH in H.
Qed.

Lemma sem_cat r1 r2 pos s g pos' s' g' :
  sem (Re.Cat r1 r2) pos s g pos' s' g' ->
  exists pos1 s1 g1, sem r1 pos s g pos1 s1 g1 /\ sem r2 pos1 s1 g1 pos' s' g'.
Proof. exact (fun H => H). Qed.

(** The shape of a line the pattern accepts: the name, a word, stands
    before the opening parenthesis, and after the closing one come only
    white space and an opening brace. *)
Lemma signature_shape s name :
  signature s = Some name ->
  exists pre ws args ws' tail,
    s = (pre ++ name ++ ws ++ String "(" (args ++ String ")" (ws' ++ tail)))%string
    /\ name <> "" /\ all_in Text.isword name = true
    /\ all_in Text.isspace ws = true
    /\ all_in (fun c => negb (Ascii.eqb c ")")) args = true
    /\ all_in Text.isspace ws' = true
    /\ (tail = "" \/ tail = String "010" "" \/ tail = "{"
        \/ tail = String "{" (String "010" "")).
Proof.
  unfold signature. destruct (Re.match_ func_pattern s) as [m|] eqn:E;
    [|discriminate].
  destruct (negb (Text.startswith "typedef" s)); [|discriminate].
  intros H. injection H as <-.
  unfold Re.match_ in E. apply rmatch_sound in E as (pos' & s' & g' & H & Hm).
  injection Hm as <-. unfold func_pattern in H.
  apply sem_cat in H as (p0 & s0 & g0 & H0 & H).
  destruct H0 as (_ & -> & -> & ->).
  apply sem_cat in H as (p1 & s1 & g1 & H1 & H).
  apply sem_consumes in H1 as (w1 & -> & ->).
  apply sem_cat in H as (p2 & s2 & g2 & H2 & H).
  apply sem_consumes in H2 as (w2 & -> & ->).
  apply sem_cat in H as (p3 & s3 & g3 & H3 & H).
  destruct H3 as (gx & (w & Hne & -> & Hw & -> & ->) & ->).
  apply sem_cat in H as (p4 & s4 & g4 & H4 & H).
  destruct H4 as (ws & -> & Hws & -> & ->).
  apply sem_cat in H as (p5 & s5 & g5 & H5 & H).
  destruct H5 as (-> & -> & ->).
  apply sem_cat in H as (p6 & s6 & g6 & H6 & H).
  destruct H6 as (args & -> & Hargs & -> & ->).
  apply sem_cat in H as (p7 & s7 & g7 & H7 & H).
  destruct H7 as (-> & -> & ->).
  apply sem_cat in H as (p8 & s8 & g8 & H8 & H).
  destruct H8 as (ws' & -> & Hws' & -> & ->).
  apply sem_cat in H as (p9 & s9 & g9 & H9 & H).
  assert (Hname :
    forall rest,
      Re.group (w1 ++ w2 ++ w ++ rest)
        (Re.set_group 3
           ((0 + String.length w1 + String.length w2)%nat,
            (0 + String.length w1 + String.length w2 + String.length w)%nat) g2)
        3 = w).
  { intros rest. unfold Re.group, Re.set_group. cbn [Nat.eqb].
    replace (0 + String.length w1 + String.length w2 + String.length w
             - (0 + String.length w1 + String.length w2))%nat
      with (String.length w) by lia.
    replace (0 + String.length w1 + String.length w2)%nat
      with (String.length (w1 ++ w2)) by (rewrite string_length_append; lia).
    rewrite <- string_append_assoc. apply substring_middle. }
  exists (w1 ++ w2)%string, ws, args, ws'.
  destruct H9 as [(-> & -> & ->)|(-> & -> & ->)];
    destruct H as ([-> | ->] & -> & -> & ->);
    eexists; rewrite Hname, string_append_assoc;
    (split; [reflexivity|]); repeat split; auto.
Qed.

Lemma string_snoc_cases (x : string) :
  x = "" \/ exists y d, x = (y ++ String d "")%string.
Proof.
  induction x as [|c x IH]; [now left|]. right.
  destruct IH as [->|(y & d & ->)].
  - now exists "", c.
  - now exists (String c y), d.
Qed.

Lemma string_snoc_inj (a b : string) (c d : ascii) :
  (a ++ String c "")%string = (b ++ String d "")%string -> c = d.
Proof.
  revert b; induction a as [|x a IH]; intros [|y b] H; cbn in H.
  - now injection H.
  - injection H as _ H. destruct b; discriminate.
  - injection H as _ H. destruct a; discriminate.
  - injection H as _ H. now apply IH in H.
Qed.

Lemma all_in_snoc p (y : string) (d : ascii) :
  all_in p (y ++ String d "") = true -> p d = true.
Proof.
  induction y as [|c y IH]; cbn.
  - now rewrite andb_true_r.
  - intros H. apply andb_true_iff in H as [_ H]. now apply IH.
Qed.

(** X9. The name of every record is a word, one or more characters of
    the class [\w], and on the signature line of the record it stands
    just before the opening parenthesis, white space apart. *)
Theorem record_name_is_word path lines r :
  In r (find_functions path (Some lines)) ->
  fn_name r <> "" /\ all_in Text.isword (fn_name r) = true
  /\ exists sig before_name ws rest,
       nth_error lines (Z.to_nat (fn_start r - 1)) = Some sig
       /\ Text.strip sig = (before_name ++ fn_name r ++ ws ++ String "(" rest)%string
       /\ all_in Text.isspace ws = true.
Proof.
  intros Hr. apply find_functions_closed in Hr.
  destruct Hr as (pre & sig & mid & close & post & -> & Hs & _ & Hsig & _).
  unfold line_signature in Hsig. destruct (is_skipped sig); [discriminate|].
  apply signature_shape in Hsig
    as (b & ws & args & ws' & tail & E & Hne & Hw & Hws & _).
  split; [exact Hne|]. split; [exact Hw|].
  exists sig, b, ws, (args ++ String ")" (ws' ++ tail))%string.
  split; [|split; [exact E|exact Hws]].
  rewrite Hs. unfold len.
  replace (Z.to_nat (Z.of_nat (List.length pre) + 1 - 1)) with (List.length pre)
    by lia.
  rewrite nth_error_app2 by lia. now rewrite Nat.sub_diag.
Qed.

Lemma record_name_is_word_witness :
  fn_name (mkRecord "main" 2 2 "a.c") <> ""
  /\ all_in Text.isword (fn_name (mkRecord "main" 2 2 "a.c")) = true.
Proof.
  destruct (record_name_is_word "a.c" [""; "int main (void) {"; "}"]
              (mkRecord "main" 2 2 "a.c")) as (H1 & H2 & _).
  - now left.
  - split; [exact H1|exact H2].
Defined.

(** X10. A line that the pattern accepts ends, white space apart, with
    the closing parenthesis or the opening brace: a line whose last
    character is anything else, a prototype with its semicolon for one,
    is never a signature. *)
Theorem signature_last_character s c :
  Text.isspace c = false -> c <> ")"%char -> c <> "{"%char ->
  signature (s ++ String c "") = None.
Proof.
  intros Hsp Hpar Hbr. destruct (signature (s ++ String c "")) as [name|] eqn:E;
    [exfalso|reflexivity].
  apply signature_shape in E
    as (pre & ws & args & ws' & tail & E & _ & _ & _ & _ & Hws' & Htail).
  assert (Hend : exists y d,
            String ")" (ws' ++ tail) = (y ++ String d "")%string
            /\ (d = ")"%char \/ Text.isspace d = true \/ d = "{"%char)).
  { destruct Htail as [-> | [-> | [-> | ->]]].
    - rewrite string_append_nil_r.
      destruct (string_snoc_cases ws') as [->|(y & d & ->)].
      + exists "", ")"%char. auto.
      + exists (String ")" y), d. apply all_in_snoc in Hws'. auto.
    - exists (String ")" ws'), "010"%char. auto.
    - exists (String ")" ws'), "{"%char. auto.
    - exists (String ")" (ws' ++ "{")), "010"%char. cbn.
      rewrite string_append_assoc. auto. }
  destruct Hend as (y & d & Hy & Hd). rewrite Hy in E.
  replace (pre ++ name ++ ws ++ String "(" (args ++ y ++ String d ""))%string
    with ((pre ++ name ++ ws ++ String "(" (args ++ y)) ++ String d "")%string
    in E.
  - apply string_snoc_inj in E. subst d.
    destruct Hd as [H|[H|H]]; congruence.
  - rewrite !string_append_assoc. cbn. now rewrite !string_append_assoc.
Qed.

Lemma signature_last_character_witness :
  signature ("static int count(void)" ++ String ";" "") = None.
Proof. apply signature_last_character; [reflexivity|discriminate|discriminate]. Defined.

(** ** What the matcher finds *)

Lemma func_pattern_core :
  func_pattern
  = Re.Cat Re.Bol
      (Re.Cat (Re.Opt (Re.Grp 1 (Re.Lit "static" (Re.Plus Text.isspace))))
         func_core).
Proof. reflexivity. Qed.

Lemma rmatch_cat r1 r2 pos s g k :
  Re.rmatch (Re.Cat r1 r2) pos s g k
  = Re.rmatch r1 pos s g (fun pos' s' g' => Re.rmatch r2 pos' s' g' k).
Proof. reflexivity. Qed.

Lemma rmatch_grp n r pos s g k :
  Re.rmatch (Re.Grp n r) pos s g k
  = Re.rmatch r pos s g
      (fun pos' s' g' => k pos' s' (Re.set_group n (pos, pos') g')).
Proof. reflexivity. Qed.

Lemma rmatch_chr c pos rest g k :
  Re.rmatch (Re.Chr c) pos (String c rest) g k = k (S pos) rest g.
Proof. cbn. now rewrite Ascii.eqb_refl. Qed.

Lemma rmatch_chr_fail c pos s g k :
  stops (Ascii.eqb c) s = true -> Re.rmatch (Re.Chr c) pos s g k = None.
Proof.
  destruct s as [|d s]; cbn; [reflexivity|].
  now destruct (Ascii.eqb c d).
Qed.

Lemma star_greedy p w : forall rest pos g k m,
  all_in p w = true -> stops p rest = true ->
  k (pos + String.length w)%nat rest g = Some m ->
  Re.star p pos (w ++ rest) g k = Some m.
Proof.
  induction w as [|c w IH]; intros rest pos g k m Hw Hstop Hk; cbn in *.
  - rewrite Nat.add_0_r in Hk. destruct rest as [|d rest]; [exact Hk|].
    cbn in *. now destruct (p d).
  - apply andb_true_iff in Hw as [Hc Hw]. rewrite Hc.
    rewrite (IH rest (S pos) g k m); auto.
    now rewrite Nat.add_succ_comm.
Qed.

Lemma rmatch_star_greedy p w rest pos g k m :
  all_in p w = true -> stops p rest = true ->
  k (pos + String.length w)%nat rest g = Some m ->
  Re.rmatch (Re.Star p) pos (w ++ rest) g k = Some m.
Proof. apply star_greedy. Qed.

Lemma rmatch_plus_greedy p w rest pos g k m :
  w <> "" -> all_in p w = true -> stops p rest = true ->
  k (pos + String.length w)%nat rest g = Some m ->
  Re.rmatch (Re.Plus p) pos (w ++ rest) g k = Some m.
Proof.
  destruct w as [|c w]; [congruence|]. intros _ Hw Hstop Hk. cbn in *.
  apply andb_true_iff in Hw as [Hc Hw]. rewrite Hc.
  apply star_greedy; auto. now rewrite Nat.add_succ_comm.
Qed.

Lemma rmatch_opt_chr c ptr rest pos g k m :
  ptr = "" \/ ptr = String c "" ->
  stops (Ascii.eqb c) rest = true ->
  k (pos + String.length ptr)%nat rest g = Some m ->
  Re.rmatch (Re.Opt (Re.Chr c)) pos (ptr ++ rest) g k = Some m.
Proof.
  intros [-> | ->] Hstop Hk; cbn [append String.length] in *.
  - rewrite Nat.add_0_r in Hk. cbn [Re.rmatch].
    fold (Re.rmatch (Re.Chr c) pos rest g k).
    now rewrite rmatch_chr_fail.
  - cbn [Re.rmatch]. rewrite Ascii.eqb_refl.
    replace (pos + 1)%nat with (S pos) in Hk by lia. now rewrite Hk.
Qed.

Lemma rmatch_lit w rest : forall pos s g k,
  Re.rmatch (Re.Lit w rest) pos (w ++ s) g k
  = Re.rmatch rest (pos + String.length w)%nat s g k.
Proof.
  induction w as [|c w IH]; intros pos s g k; cbn [Re.Lit append String.length].
  - now rewrite Nat.add_0_r.
  - rewrite rmatch_cat, rmatch_chr, IH. now rewrite Nat.add_succ_comm.
Qed.

Lemma rmatch_lit_fail w rest : forall pos s g k,
  w <> "" -> String.prefix w s = false ->
  Re.rmatch (Re.Lit w rest) pos s g k = None.
Proof.
  induction w as [|c w IH]; intros pos s g k Hne Hp; [congruence|].
  cbn [Re.Lit]. rewrite rmatch_cat. destruct s as [|d s]; [reflexivity|].
  cbn [String.prefix] in Hp. cbn [Re.rmatch].
  destruct (Ascii.eqb c d) eqn:E; [|reflexivity].
  apply Ascii.eqb_eq in E. subst d.
  destruct (ascii_dec c c) as [_|Hn]; [|congruence].
  destruct w as [|c' w]; [destruct s; discriminate|].
  apply IH; [discriminate|exact Hp].
Qed.

Lemma word_not_space c : Text.isword c = true -> Text.isspace c = false.
Proof. destruct c as [[] [] [] [] [] [] [] []]; vm_compute; congruence. Qed.

Lemma space_not_word c : Text.isspace c = true -> Text.isword c = false.
Proof. destruct c as [[] [] [] [] [] [] [] []]; vm_compute; congruence. Qed.

Lemma word_not_star c : Text.isword c = true -> Ascii.eqb "*" c = false.
Proof. destruct c as [[] [] [] [] [] [] [] []]; vm_compute; congruence. Qed.

Lemma space_not_star c : Text.isspace c = true -> Ascii.eqb "*" c = false.
Proof. destruct c as [[] [] [] [] [] [] [] []]; vm_compute; congruence. Qed.

Lemma stops_head (p q : ascii -> bool) (w rest : string) :
  (forall c, q c = true -> p c = false) ->
  w <> "" -> all_in q w = true -> stops p (w ++ rest) = true.
Proof.
  intros H Hne Hw. destruct w as [|c w]; [congruence|]. cbn in *.
  apply andb_true_iff in Hw as [Hc _]. now rewrite (H c Hc).
Qed.

Lemma group_at (whole pre name post : string) (m : Re.groups) :
  whole = (pre ++ name ++ post)%string ->
  m 3%nat = Some (String.length pre, (String.length pre + String.length name)%nat) ->
  Re.group whole m 3 = name.
Proof.
  intros -> Hm. unfold Re.group. rewrite Hm.
  replace (String.length pre + String.length name - String.length pre)%nat
    with (String.length name) by lia.
  apply substring_middle.
Qed.

Lemma rmatch_bol s g k : Re.rmatch Re.Bol 0 s g k = k 0%nat s g.
Proof. reflexivity. Qed.

Lemma rmatch_opt_skip r pos s g k :
  Re.rmatch r pos s g k = None -> Re.rmatch (Re.Opt r) pos s g k = k pos s g.
Proof. cbn [Re.rmatch]. now intros ->. Qed.

Lemma rmatch_opt_take r pos s g k m :
  Re.rmatch r pos s g k = Some m -> Re.rmatch (Re.Opt r) pos s g k = Some m.
Proof. cbn [Re.rmatch]. now intros ->. Qed.

Lemma stops_after_spaces (p : ascii -> bool) (ws rest : string) :
  (forall c, Text.isspace c = true -> p c = false) ->
  all_in Text.isspace ws = true -> stops p rest = true ->
  stops p (ws ++ rest) = true.
Proof.
  intros H Hws Hrest. destruct ws as [|c ws]; [exact Hrest|]. cbn in *.
  apply andb_true_iff in Hws as [Hc _]. now rewrite (H c Hc).
Qed.

Section Detection.

Variables type ws1 ptr name ws2 args ws3 brace : string.

Hypothesis type_word : type <> "" /\ all_in Text.isword type = true.
Hypothesis gap_space : ws1 <> "" /\ all_in Text.isspace ws1 = true.
Hypothesis ptr_star : ptr = "" \/ ptr = "*".
Hypothesis name_word : name <> "" /\ all_in Text.isword name = true.
Hypothesis ws2_space : all_in Text.isspace ws2 = true.
Hypothesis args_closed : all_in (fun c => negb (Ascii.eqb c ")")) args = true.
Hypothesis ws3_space : all_in Text.isspace ws3 = true.
Hypothesis brace_open : brace = "" \/ brace = "{".

Local Notation line := (definition_line type ws1 ptr name ws2 args ws3 brace).

Lemma core_match pos g :
  exists m,
    Re.rmatch func_core pos line g (fun _ _ g' => Some g') = Some m
    /\ m 3%nat
       = Some ((pos + String.length (type ++ ws1 ++ ptr))%nat,
               (pos + String.length (type ++ ws1 ++ ptr) + String.length name)%nat).
Proof.
  destruct type_word as [Ht1 Ht2]. destruct gap_space as [Hg1 Hg2].
  destruct name_word as [Hn1 Hn2].
  eexists. split.
  - unfold func_core, definition_line.
    rewrite rmatch_cat, rmatch_grp, rmatch_cat.
    apply rmatch_plus_greedy; [exact Ht1|exact Ht2| |].
    { now apply (stops_head _ Text.isspace); [exact space_not_word| |]. }
    cbv beta. rewrite rmatch_cat.
    apply rmatch_plus_greedy; [exact Hg1|exact Hg2| |].
    { destruct ptr_star as [-> | ->]; [|reflexivity]. cbn [append].
      now apply (stops_head _ Text.isword); [exact word_not_space| |]. }
    cbv beta.
    apply rmatch_opt_chr; [exact ptr_star| |].
    { now apply (stops_head _ Text.isword); [exact word_not_star| |]. }
    cbv beta. rewrite rmatch_cat, rmatch_grp.
    apply rmatch_plus_greedy; [exact Hn1|exact Hn2| |].
    { now apply stops_after_spaces; [exact space_not_word| |]. }
    cbv beta. rewrite rmatch_cat.
    apply rmatch_star_greedy; [exact ws2_space|reflexivity|].
    cbv beta. rewrite rmatch_cat, rmatch_chr, rmatch_cat.
    apply rmatch_star_greedy; [exact args_closed|reflexivity|].
    cbv beta. rewrite rmatch_cat, rmatch_chr, rmatch_cat.
    apply rmatch_star_greedy; [exact ws3_space| |].
    { destruct brace_open as [-> | ->]; reflexivity. }
    cbv beta. rewrite rmatch_cat.
    rewrite <- (string_append_nil_r brace).
    apply rmatch_opt_chr; [exact brace_open|reflexivity|].
    cbv beta. reflexivity.
  - unfold Re.set_group. cbn [Nat.eqb]. do 2 f_equal;
      rewrite !string_length_append; lia.
Qed.

(** X11. A line in the usual layout, a type, white space, an optional
    [*], the name, the arguments in parentheses and an optional opening
    brace, is taken as a signature with that name when it does not begin
    with [typedef]; so is the same line after [static] and white space. *)
Theorem definition_line_detected :
  (Text.startswith "static" line = false ->
   Text.startswith "typedef" line = false ->
   signature line = Some name)
  /\ (forall ws0, ws0 <> "" -> all_in Text.isspace ws0 = true ->
        signature ("static" ++ ws0 ++ line) = Some name).
Proof.
  split.
  - intros Hstatic Htypedef. unfold signature, Re.match_.
    rewrite func_pattern_core, rmatch_cat, rmatch_bol. cbv beta.
    rewrite rmatch_cat, rmatch_opt_skip
      by (rewrite rmatch_grp; apply rmatch_lit_fail;
          [discriminate|exact Hstatic]).
    destruct (core_match 0 Re.no_groups) as (m & -> & H3).
    rewrite Htypedef. cbn [negb]. f_equal.
    apply (group_at _ (type ++ ws1 ++ ptr) name
             (ws2 ++ String "(" (args ++ String ")" (ws3 ++ brace))));
      [|exact H3].
    unfold definition_line. now rewrite !string_append_assoc.
  - intros ws0 Hw1 Hw2. unfold signature, Re.match_.
    rewrite func_pattern_core, rmatch_cat, rmatch_bol. cbv beta.
    rewrite rmatch_cat.
    destruct (core_match (0 + String.length "static" + String.length ws0)%nat
                (Re.set_group 1
                   (0%nat, (0 + String.length "static" + String.length ws0)%nat)
                   Re.no_groups)) as (m & Hm & H3).
    rewrite (rmatch_opt_take _ _ _ _ _ m).
    + replace (negb (Text.startswith "typedef" ("static" ++ ws0 ++ line)))
        with true by reflexivity.
      f_equal.
      apply (group_at _ ("static" ++ ws0 ++ type ++ ws1 ++ ptr) name
               (ws2 ++ String "(" (args ++ String ")" (ws3 ++ brace)))).
      * unfold definition_line. now rewrite !string_append_assoc.
      * rewrite H3. do 2 f_equal; rewrite !string_length_append;
          cbn [String.length append]; rewrite ?string_length_append; lia.
    + rewrite rmatch_grp, rmatch_lit.
      apply rmatch_plus_greedy; [exact Hw1|exact Hw2| |exact Hm].
      unfold definition_line. destruct type_word as [Ht1 Ht2].
      now apply (stops_head _ Text.isword); [exact word_not_space| |].
Qed.

End Detection.

Lemma definition_line_detected_witness :
  signature "int *main(void) {" = Some "main"
  /\ signature "static  int *main(void) {" = Some "main".
Proof.
  destruct (definition_line_detected "int" " " "*" "main" "" "void" " " "{")
    as [H1 H2];
    try (split; [discriminate|reflexivity]); try reflexivity;
    try (right; reflexivity).
  split.
  - apply H1; reflexivity.
  - apply (H2 "  "); [discriminate|reflexivity].
Defined.
